(** * go-sdk: lifecycle components and the gin listener

    A shallow embedding of the Go sources
      - [httpserver/gin.go]          (the gin listener component),
      - [httpserver/http_server.go]  (keep-alive listener wrapper),
      - [plugin/simple/simple.go]    (the simple plugin),
      - [plugin/otel]                (the OpenTelemetry plugin and the
                                      package-level set-up it replaced),
      - [logger/logger.go]           (the logger that adds the source field),
    together with a small interleaving semantics for goroutines, unbuffered
    channels and the process-level effects (panic, [os.Exit]) the code relies
    on.  Go functions become programs in a continuation monad over an
    inductive type of processes; the shared memory of each component is an
    explicit record. *)

From Stdlib Require Import List ZArith String Ascii Bool Arith Lia.
From Stdlib Require Import DecimalString DecimalZ.
Import ListNotations.

Set Implicit Arguments.
Open Scope string_scope.
Open Scope list_scope.

(* ================================================================== *)
(** ** Goroutines, channels and schedules *)
(* ================================================================== *)

Module Sched.

Definition chan := nat.

(** How a Go process can end before its goroutines are done. *)
Inductive Halt : Type :=
| Panicked (msg : string)
| Exited (code : Z).

Section Kernel.

(** [W] is the memory the goroutines share (and the environment they talk
    to); [on_exit] is what the operating system does to it when the process
    terminates. *)
Variable W : Type.
Variable on_exit : W -> W.

(** A goroutine is a tree of atomic actions.  [Atomic f] is one indivisible
    statement: [f w = None] means the statement cannot proceed in [w] (a
    blocked lock, a blocked accept loop). *)
#[local] Unset Elimination Schemes.
Inductive Proc : Type :=
| Done
| Atomic (f : W -> option (W * Proc))
| Go (child : Proc) (k : Proc)
| MakeChan (k : chan -> Proc)
| Send (c : chan) (v : bool) (k : Proc)
| Recv (c : chan) (k : bool -> Proc)
| Panic (msg : string)
| Exit (code : Z).
#[local] Set Elimination Schemes.

Record State : Type := mkState {
  world : W;
  pool : list Proc;
  nchan : nat;
  delivered : list (chan * bool);
  halted : option Halt
}.

Fixpoint upd (A : Type) (i : nat) (x : A) (l : list A) : list A :=
  match l, i with
  | [], _ => []
  | _ :: t, O => x :: t
  | h :: t, S j => h :: upd j x t
  end.

(** First goroutine, other than [self], blocked in a receive on [c]. *)
Fixpoint find_recv (c : chan) (self j : nat) (pl : list Proc)
  : option (nat * (bool -> Proc)) :=
  match pl with
  | [] => None
  | Recv c' k :: t =>
      if Nat.eqb c c' && negb (Nat.eqb j self) then Some (j, k)
      else find_recv c self (S j) t
  | _ :: t => find_recv c self (S j) t
  end.

(** First goroutine, other than [self], blocked in a send on [c]. *)
Fixpoint find_send (c : chan) (self j : nat) (pl : list Proc)
  : option (nat * bool * Proc) :=
  match pl with
  | [] => None
  | Send c' v k :: t =>
      if Nat.eqb c c' && negb (Nat.eqb j self) then Some (j, v, k)
      else find_send c self (S j) t
  | _ :: t => find_send c self (S j) t
  end.

(** One step of goroutine [i].  Channels are unbuffered: a send and a
    receive on the same channel advance together, and the value is logged
    in [delivered]. *)
Definition step_thread (i : nat) (st : State) : option State :=
  match halted st with
  | Some _ => None
  | None =>
    match nth_error (pool st) i with
    | None => None
    | Some Done => None
    | Some (Atomic f) =>
        match f (world st) with
        | None => None
        | Some (w', k) =>
            Some (mkState w' (upd i k (pool st)) (nchan st)
                          (delivered st) None)
        end
    | Some (Go child k) =>
        Some (mkState (world st) (upd i k (pool st) ++ [child]) (nchan st)
                      (delivered st) None)
    | Some (MakeChan k) =>
        Some (mkState (world st) (upd i (k (nchan st)) (pool st))
                      (S (nchan st)) (delivered st) None)
    | Some (Send c v k) =>
        match find_recv c i 0 (pool st) with
        | None => None
        | Some (j, kr) =>
            Some (mkState (world st) (upd j (kr v) (upd i k (pool st)))
                          (nchan st) (delivered st ++ [(c, v)]) None)
        end
    | Some (Recv c kr) =>
        match find_send c i 0 (pool st) with
        | None => None
        | Some (j, v, ks) =>
            Some (mkState (world st) (upd j ks (upd i (kr v) (pool st)))
                          (nchan st) (delivered st ++ [(c, v)]) None)
        end
    | Some (Panic msg) =>
        Some (mkState (world st) (pool st) (nchan st) (delivered st)
                      (Some (Panicked msg)))
    | Some (Exit code) =>
        Some (mkState (on_exit (world st)) (pool st) (nchan st)
                      (delivered st) (Some (Exited code)))
    end
  end.

(** A schedule names, step after step, the goroutine the runtime picks; a
    pick that cannot move is skipped. *)
Fixpoint run (sched : list nat) (st : State) : State :=
  match sched with
  | [] => st
  | i :: rest =>
      match step_thread i st with
      | Some st' => run rest st'
      | None => run rest st
      end
  end.

Definition succs (st : State) : list State :=
  flat_map (fun i => match step_thread i st with
                     | Some st' => [st']
                     | None => []
                     end)
           (seq 0 (List.length (pool st))).

(** States within [n] steps, and states exactly [n] steps away. *)
Fixpoint reach (n : nat) (st : State) : list State :=
  st :: match n with
        | O => []
        | S m => flat_map (reach m) (succs st)
        end.

Fixpoint frontier (n : nat) (st : State) : list State :=
  match n with
  | O => [st]
  | S m => flat_map (frontier m) (succs st)
  end.

Definition start (w : W) (ps : list Proc) : State :=
  mkState w ps 0 [] None.

(** A schedule is busy when every pick moves: it is an execution with no
    idle turn. *)
Fixpoint busy (sched : list nat) (st : State) : bool :=
  match sched with
  | [] => true
  | i :: rest =>
      match step_thread i st with
      | Some st' => busy rest st'
      | None => false
      end
  end.

(** No goroutine can move (all done, or all blocked, or the process is
    gone). *)
Definition quiescent (st : State) : bool :=
  match succs st with
  | [] => true
  | _ :: _ => false
  end.

(** A new call arrives: one more goroutine. *)
Definition spawn (p : Proc) (st : State) : State :=
  mkState (world st) (pool st ++ [p]) (nchan st) (delivered st)
          (halted st).

(** Values a channel has yielded so far. *)
Definition yielded (c : chan) (st : State) : list bool :=
  map snd (filter (fun cv => Nat.eqb (fst cv) c) (delivered st)).

(** *** The continuation monad of Go function bodies *)

Definition M (A : Type) : Type := (A -> Proc) -> Proc.

Definition ret (A : Type) (a : A) : M A := fun k => k a.

Definition bind (A B : Type) (m : M A) (f : A -> M B) : M B :=
  fun k => m (fun a => f a k).

Definition atomic (A : Type) (f : W -> option (W * A)) : M A :=
  fun k => Atomic (fun w => match f w with
                            | Some (w', a) => Some (w', k a)
                            | None => None
                            end).

(** An atomic statement that may hit a run-time panic. *)
Definition atomic_or_panic (A : Type) (f : W -> option (W * (string + A)))
  : M A :=
  fun k => Atomic (fun w => match f w with
                            | Some (w', inr a) => Some (w', k a)
                            | Some (w', inl msg) => Some (w', Panic msg)
                            | None => None
                            end).

Definition read (A : Type) (f : W -> A) : M A :=
  atomic (fun w => Some (w, f w)).

Definition write (f : W -> W) : M unit :=
  atomic (fun w => Some (f w, tt)).

(** [go func() { body }()] *)
Definition go (body : M unit) : M unit :=
  fun k => Go (body (fun _ => Done)) (k tt).

Definition make_chan : M chan := fun k => MakeChan k.
Definition send (c : chan) (v : bool) : M unit := fun k => Send c v (k tt).
Definition recv (c : chan) : M bool := fun k => Recv c k.
Definition panic (A : Type) (msg : string) : M A := fun _ => Panic msg.
Definition exit (A : Type) (code : Z) : M A := fun _ => Exit code.

(** A goroutine running [m] and then stopping. *)
Definition thread (A : Type) (m : M A) : Proc := m (fun _ => Done).

End Kernel.

Arguments Done {W}.
Arguments Panic {W} msg.
Arguments Exit {W} code.
Arguments Send {W} c v k.
Arguments Recv {W} c k.
Arguments MakeChan {W} k.
Arguments make_chan {W}.
Arguments send {W} c v.
Arguments recv {W} c.
Arguments panic {W A} msg.
Arguments exit {W A} code.
Arguments ret {W A} a.

End Sched.

Import Sched.

Declare Scope go_scope.
Delimit Scope go_scope with go.
Notation "x <- m ;; k" := (bind m (fun x => k))
  (at level 61, m at next level, right associativity) : go_scope.
Notation "m ;;; k" := (bind m (fun _ => k))
  (at level 61, right associativity) : go_scope.
Open Scope go_scope.

(** Go's [error] values, as far as the components tell them apart:
    [http.ErrServerClosed] is compared by identity in [ginService.Run]; every
    other error is carried as its message. *)
Inductive error : Type :=
| ErrServerClosed
| ErrorString (msg : string).

Definition error_eqb (a b : error) : bool :=
  match a, b with
  | ErrServerClosed, ErrServerClosed => true
  | ErrorString x, ErrorString y => String.eqb x y
  | _, _ => false
  end.

(** [errors.Join]: nil operands are dropped, nil when nothing is left. *)
Definition errors_Join (a b : option error) : option error :=
  match a, b with
  | None, None => None
  | Some e, None => Some e
  | None, Some e => Some e
  | Some (ErrorString x), Some (ErrorString y) =>
      Some (ErrorString (x ++ String "010"%char y))
  | Some ErrServerClosed, Some (ErrorString y) =>
      Some (ErrorString ("http: Server closed" ++ String "010"%char y))
  | Some (ErrorString x), Some ErrServerClosed =>
      Some (ErrorString (x ++ String "010"%char "http: Server closed"))
  | Some ErrServerClosed, Some ErrServerClosed =>
      Some (ErrorString ("http: Server closed"
                         ++ String "010"%char "http: Server closed"))
  end.

(* ================================================================== *)
(** ** plugin/simple/simple.go *)
(* ================================================================== *)

Module Simple.

Record simplePlugin : Type := mk_simplePlugin {
  name : string;
  value : string
}.

Definition NewSimplePlugin (n : string) : simplePlugin :=
  mk_simplePlugin n "".

Definition GetPrefix (s : simplePlugin) : string := name s.
Definition Name (s : simplePlugin) : string := name s.
Definition GetValue (s : simplePlugin) : string := value s.

(** [flag.StringVar] stores the default in the variable when it registers
    the flag. *)
Definition InitFlags (s : simplePlugin) : simplePlugin :=
  mk_simplePlugin (name s) "default value".

Definition Configure (s : simplePlugin) : option error :=
  if String.eqb (value s) "" then
    Some (ErrorString "simple plugin value is empty")
  else None.

Definition Run (s : simplePlugin) : option error :=
  match Configure s with
  | Some err => Some err
  | None => None
  end.

Definition Stop : M simplePlugin chan :=
  c <- make_chan ;;
  go (send c true) ;;;
  ret c.

(** A caller that stops the plugin and waits for the acknowledgment. *)
Definition stop_and_wait : Proc simplePlugin :=
  thread (c <- Stop ;; v <- recv c ;; ret v).

Definition scenario (s : simplePlugin) : State simplePlugin :=
  start s [stop_and_wait].

(** Nothing of the plugin lives outside the process. *)
Definition on_exit (s : simplePlugin) : simplePlugin := s.

End Simple.

(* ================================================================== *)
(** ** plugin/otel (the OpenTelemetry plugin) *)
(* ================================================================== *)

Module Otel.

Definition otelProtocolHTTP : string := "http".
Definition otelProtocolGRPC : string := "grpc".
Definition defaultOtelEndpoint : string := "".
Definition defaultNameService : string := "".
Definition defaultVersion : string := "".
Definition defaultOtelProtocol : string := otelProtocolGRPC.
Definition defaultIsEnabled : bool := true.

(** The three SDK providers [SetupOTelSDK] can start. *)
Inductive ProviderKind : Type := Tracer | Meter | LoggerP.

(** Where a provider exports to, as chosen by [isOtlpProtocolEnabled] and
    [exporterOtlpProtocol]. *)
Inductive Exporter : Type := OtlpHTTP | OtlpGRPC | Stdout.

Record Provider : Type := mk_Provider {
  kind : ProviderKind;
  exporter : Exporter;
  running : bool
}.

Record OtelPlugin : Type := mk_OtelPlugin {
  name : string;
  prefix : string;
  isEnabled : bool;
  serviceName : string;
  serviceVersion : string;
  exporterOtlpEndpoint : string;
  exporterOtlpProtocol : string;
  isEnabledTrace : bool;
  isEnabledMetric : bool;
  isEnabledLog : bool;
  (** [shutdown func(context.Context) error]: nil, or the closure returned by
      [SetupOTelSDK], named by the cell holding its captured
      [shutdownFuncs]. *)
  shutdown : option nat
}.

(** What the exporter constructors and the providers' [Shutdown] answer. *)
Record Env : Type := mk_Env {
  new_exporter_err : ProviderKind -> option error;
  provider_shutdown_err : ProviderKind -> option error
}.

Record World : Type := mk_World {
  op : OtelPlugin;
  providers : list Provider;
  (** captured [shutdownFuncs] variables, one per call of [SetupOTelSDK];
      each entry names a provider whose [Shutdown] is registered *)
  closures : list (list nat);
  env : Env
}.

Definition set_op (f : OtelPlugin -> OtelPlugin) (w : World) : World :=
  mk_World (f (op w)) (providers w) (closures w) (env w).

Definition NewOtelPlugin (n : string) : OtelPlugin :=
  mk_OtelPlugin n n defaultIsEnabled defaultNameService defaultNameService
                "" "" false false false None.

Definition InitFlags (p : OtelPlugin) : OtelPlugin :=
  mk_OtelPlugin (name p) (prefix p) defaultIsEnabled defaultNameService
                defaultVersion defaultOtelEndpoint defaultOtelProtocol
                true true true (shutdown p).

Definition IsEnabled (p : OtelPlugin) : bool := isEnabled p.
Definition Prefix (p : OtelPlugin) : string := prefix p.
Definition GetPrefix (p : OtelPlugin) : string := prefix p.
Definition Name (p : OtelPlugin) : string := name p.

Definition Configure (p : OtelPlugin) : option error :=
  if String.eqb (serviceName p) "" then
    Some (ErrorString "otel service name is empty")
  else if String.eqb (serviceVersion p) "" then
    Some (ErrorString "otel service version is empty")
  else if String.eqb (exporterOtlpEndpoint p) "" then
    Some (ErrorString "if OTEL_IS_ENABLED=true, then otel exporter otlp endpoint is not empty, e.g. http://localhost:4317")
  else None.

Definition isOtlpProtocolEnabled (p : OtelPlugin) : bool :=
  negb (String.eqb (exporterOtlpEndpoint p) defaultOtelEndpoint).

(** [newOtlpTraceExporter] and its two siblings. *)
Definition newOtlpExporter (p : OtelPlugin) : Exporter :=
  if String.eqb (exporterOtlpProtocol p) otelProtocolHTTP then OtlpHTTP
  else OtlpGRPC.

(** [newTraceProvider], [newMeterProvider], [newLoggerProvider]: pick the
    exporter, fail when its constructor fails. *)
Definition newProvider (k : ProviderKind) (w : World) : Provider + error :=
  match new_exporter_err (env w) k with
  | Some e => inr e
  | None =>
      inl (mk_Provider k (if isOtlpProtocolEnabled (op w)
                          then newOtlpExporter (op w) else Stdout) true)
  end.

Fixpoint stop_provider (i : nat) (ps : list Provider) : list Provider :=
  match ps, i with
  | [], _ => []
  | p :: t, O => mk_Provider (kind p) (exporter p) false :: t
  | p :: t, S j => p :: stop_provider j t
  end.

(** The loop of the [shutdown] closure: call every registered cleanup,
    joining the errors. *)
Fixpoint run_cleanups (e : Env) (fns : list nat) (ps : list Provider)
                      (err : option error) : list Provider * option error :=
  match fns with
  | [] => (ps, err)
  | i :: rest =>
      let r := match nth_error ps i with
               | Some p => provider_shutdown_err e (kind p)
               | None => None
               end in
      run_cleanups e rest (stop_provider i ps) (errors_Join err r)
  end.

(** Calling the closure in cell [cl]: the cleanups run, then
    [shutdownFuncs = nil]. *)
Definition call_shutdown (cl : nat) (w : World) : World * option error :=
  let fns := nth cl (closures w) [] in
  let r := run_cleanups (env w) fns (providers w) None in
  (mk_World (op w) (fst r) (upd cl [] (closures w)) (env w), snd r).

(** One [if op.isEnabledX { ... }] block of [SetupOTelSDK], on the world
    where the closure lives in cell [cl]; [inr err] is the early return
    through [handleErr]. *)
Definition setup_provider (enabled : bool) (k : ProviderKind) (cl : nat)
                          (w : World) : World + (World * option error) :=
  if enabled then
    match newProvider k w with
    | inr providerErr =>
        let '(w', serr) := call_shutdown cl w in
        inr (w', errors_Join (Some providerErr) serr)
    | inl p =>
        inl (mk_World (op w) (providers w ++ [p])
                      (upd cl (nth cl (closures w) []
                               ++ [List.length (providers w)]) (closures w))
                      (env w))
    end
  else inl w.

Definition SetupOTelSDK (w : World) : World * (nat * option error) :=
  let cl := List.length (closures w) in
  let w0 := mk_World (op w) (providers w) (closures w ++ [[]]) (env w) in
  match setup_provider (isEnabledTrace (op w0)) Tracer cl w0 with
  | inr (w', err) => (w', (cl, err))
  | inl w1 =>
  match setup_provider (isEnabledMetric (op w1)) Meter cl w1 with
  | inr (w', err) => (w', (cl, err))
  | inl w2 =>
  match setup_provider (isEnabledLog (op w2)) LoggerP cl w2 with
  | inr (w', err) => (w', (cl, err))
  | inl w3 => (w3, (cl, None))
  end end end.

Definition set_shutdown (s : option nat) (p : OtelPlugin) : OtelPlugin :=
  mk_OtelPlugin (name p) (prefix p) (isEnabled p) (serviceName p)
                (serviceVersion p) (exporterOtlpEndpoint p)
                (exporterOtlpProtocol p) (isEnabledTrace p)
                (isEnabledMetric p) (isEnabledLog p) s.

Definition Run (w : World) : World * option error :=
  if negb (isEnabled (op w)) then (w, None)
  else
    match Configure (op w) with
    | Some err => (w, Some err)
    | None =>
        let '(w', (cl, err)) := SetupOTelSDK w in
        (set_op (set_shutdown (Some cl)) w', err)
    end.

(** [op.shutdown(op.ctx)]: calling a nil func value panics. *)
Definition invoke_shutdown : M World (option error) :=
  fun k =>
    Atomic (fun w =>
      match shutdown (op w) with
      | None =>
          Some (w, Panic "invalid memory address or nil pointer dereference")
      | Some cl =>
          Some (fst (call_shutdown cl w), k (snd (call_shutdown cl w)))
      end).

Definition Stop : M World chan :=
  c <- make_chan ;;
  go (send c true ;;;
      _ <- invoke_shutdown ;;
      ret tt) ;;;
  ret c.

Definition stop_and_wait : Proc World :=
  thread (c <- Stop ;; v <- recv c ;; ret v).

Definition scenario (w : World) : State World :=
  start w [stop_and_wait].

(** Cleanup still owed: a provider that was started and not shut down. *)
Definition shutdown_pending (w : World) : bool :=
  existsb running (providers w).

Definition on_exit (w : World) : World := w.

(** The plugin of a service started with the default features and the
    flags [--otel-service-name=svc --otel-service-version=1.0.0
    --otel-exporter-otlp-endpoint=http://localhost:4317], after [Run]. *)
Definition example_env : Env := mk_Env (fun _ => None) (fun _ => None).

Definition example_flags : OtelPlugin :=
  let p := InitFlags (NewOtelPlugin "otel") in
  mk_OtelPlugin (name p) (prefix p) (isEnabled p) "svc" "1.0.0"
                "http://localhost:4317" (exporterOtlpProtocol p)
                (isEnabledTrace p) (isEnabledMetric p) (isEnabledLog p)
                (shutdown p).

Definition example_running : World :=
  fst (Run (mk_World example_flags [] [] example_env)).

End Otel.

(* ================================================================== *)
(** ** httpserver/http_server.go *)
(* ================================================================== *)

Module HttpServer.

(** [time.Duration] counts nanoseconds. *)
Definition Nanosecond : Z := 1.
Definition Second : Z := 1000000000 * Nanosecond.
Definition Minute : Z := 60 * Second.

(** The socket options of a [*net.TCPConn] the code touches. *)
Record TCPConn : Type := mk_TCPConn {
  fd : nat;
  keepAlive : bool;
  keepAlivePeriod : Z
}.

(** What one call of [AcceptTCP] on the live listener can give: a new
    connection, with whatever options the listener configuration left on it,
    or an error (temporary ones make [http.Server.Serve] retry). *)
Inductive AcceptOutcome : Type :=
| Incoming (tc : TCPConn)
| AcceptError (e : error) (temporary : bool).

Definition AcceptTCP (o : AcceptOutcome) : option TCPConn * option error :=
  match o with
  | Incoming tc => (Some tc, None)
  | AcceptError e _ => (None, Some e)
  end.

Definition SetKeepAlive (keepalive : bool) (c : TCPConn)
  : TCPConn * option error :=
  (mk_TCPConn (fd c) keepalive (keepAlivePeriod c), None).

Definition SetKeepAlivePeriod (d : Z) (c : TCPConn)
  : TCPConn * option error :=
  (mk_TCPConn (fd c) (keepAlive c) d, None).

(** [tcpKeepAliveListener.Accept] *)
Definition Accept (o : AcceptOutcome) : option TCPConn * option error :=
  match AcceptTCP o with
  | (_, Some err) => (None, Some err)
  | (None, None) => (None, None)
  | (Some tc, None) =>
      let '(tc, _) := SetKeepAlive true tc in
      let '(tc, _) := SetKeepAlivePeriod (3 * Minute) tc in
      (Some tc, None)
  end.

(** The accept loop of [http.Server.Serve], run over the listener wrapped by
    [myHttpServer.Serve]: every connection comes out of [Accept]; a
    temporary error is retried, any other one ends the loop.  The result is
    the connections handed to the server and the error that ended the loop
    ([None] while the loop is still waiting for the next connection). *)
Fixpoint accept_loop (script : list AcceptOutcome)
  : list TCPConn * option error :=
  match script with
  | [] => ([], None)
  | o :: rest =>
      match Accept o with
      | (Some c, _) =>
          let '(cs, e) := accept_loop rest in (c :: cs, e)
      | (None, Some err) =>
          match o with
          | AcceptError _ true => accept_loop rest
          | _ => ([], Some err)
          end
      | (None, None) => accept_loop rest
      end
  end.

(** [myHttpServer.Serve]: [http.Server.Serve] on the listener wrapped in
    [tcpKeepAliveListener].  [script] is what the listener yields until it
    is closed by [Shutdown]; the loop then ends with the closed-server
    error, unless accepting had failed for good before. *)
Definition Serve (script : list AcceptOutcome) : list TCPConn * error :=
  (fst (accept_loop script),
   match snd (accept_loop script) with
   | Some err => err
   | None => ErrServerClosed
   end).

(** The connections the system delivered before the loop ended. *)
Fixpoint taken (script : list AcceptOutcome) : list TCPConn :=
  match script with
  | [] => []
  | Incoming tc :: rest => tc :: taken rest
  | AcceptError _ true :: rest => taken rest
  | AcceptError _ false :: _ => []
  end.

(** The policy: keep-alive on, probing period three minutes. *)
Definition with_keepalive (tc : TCPConn) : TCPConn :=
  mk_TCPConn (fd tc) true (3 * Minute).

End HttpServer.

(* ================================================================== *)
(** ** httpserver/gin.go *)
(* ================================================================== *)

Module Gin.

Import HttpServer.

Definition defaultPort : Z := 3000.

Record Config : Type := mk_Config {
  Port : Z;
  BindAddr : string;
  GinNoDefault : bool
}.

(** *** Strings *)

(** [strings.Contains] *)
Fixpoint strings_Contains (s substr : string) : bool :=
  if String.prefix substr s then true
  else match s with
       | EmptyString => false
       | String _ t => strings_Contains t substr
       end.

(** The [%d] verb on an [int]. *)
Definition itoa (p : Z) : string := NilZero.string_of_int (Z.to_int p).

(** [formatBindAddr] *)
Definition formatBindAddr (s : string) (p : Z) : string :=
  let s := if strings_Contains s ":" && negb (strings_Contains s "[")
           then ("[" ++ s ++ "]")%string else s in
  (s ++ ":" ++ itoa p)%string.

(** *** The router *)

(** A [*gin.Engine], as far as the listener is concerned: the middleware
    chain and the routes installed on it. *)
Record Engine : Type := mk_Engine {
  middleware : list string;
  routes : list string
}.

Definition gin_New : Engine := mk_Engine [] [].

Definition Use (m : string) (e : Engine) : Engine :=
  mk_Engine (middleware e ++ [m]) (routes e).

(** A route-installation callback (a func taking the engine pointer), by
    its effect on the engine it is handed. *)
Definition HandlerFunc : Type := Engine -> Engine.

(** *** The operating system and [net/http] *)

Record Listener : Type := mk_Listener {
  lis_id : nat;
  lis_addr : string;
  lis_port : Z
}.

(** The text after the last colon of an address. *)
Fixpoint after_last_colon (s : string) : option string :=
  match s with
  | EmptyString => None
  | String c t =>
      match after_last_colon t with
      | Some r => Some r
      | None => if Ascii.eqb c ":" then Some t else None
      end
  end.

(** The port [net.Listen] is asked for: decimal digits after the last
    colon. *)
Definition port_of_addr (a : string) : option Z :=
  match after_last_colon a with
  | None => None
  | Some d =>
      match NilZero.uint_of_string d with
      | Some u => Some (Z.of_uint u)
      | None => None
      end
  end.

(** What the operating system decides when asked to listen: it refuses with
    an error, or grants the socket; [ephemeral] is the port it hands out
    when the request leaves the choice to it (port 0 or no port). *)
Inductive ListenOutcome : Type :=
| ListenOK (ephemeral : positive)
| ListenErr (e : error).

Record Env : Type := mk_Env {
  (** answer to the n-th [net.Listen] of the process *)
  listen_script : nat -> ListenOutcome;
  (** the error, if any, with which accepting on the n-th listener fails
      for good (the [Some err] end of [HttpServer.accept_loop]) *)
  serve_fault : nat -> option error
}.

(** The port a granted socket is bound to: the requested one, or the
    system's choice when the request is for port 0 or names no port. *)
Definition bound_port (requested : option Z) (ephemeral : positive) : Z :=
  match requested with
  | Some p => if Z.eqb p 0 then Zpos ephemeral else p
  | None => Zpos ephemeral
  end.

(** [net.Listen("tcp", addr)] as a function of the request and of the
    system's decision. *)
Definition os_listen (o : ListenOutcome) (id : nat) (addr : string)
  : option Listener * option error :=
  match o with
  | ListenErr e => (None, Some e)
  | ListenOK eph =>
      (Some (mk_Listener id addr (bound_port (port_of_addr addr) eph)), None)
  end.

(** [myHttpServer]: an [http.Server] with its [Handler] (a pointer to the
    router), the listeners it tracks and its shutdown flag. *)
Record myHttpServer : Type := mk_myHttpServer {
  Handler : option nat;
  tracked : list nat;
  inShutdown : bool
}.

Record ginService : Type := mk_ginService {
  Config_ : Config;
  isEnabled : bool;
  name : string;
  logger : option string;
  svr : option nat;
  router : option nat;
  (** [mu *sync.Mutex]: is the mutex held? *)
  mu : bool;
  handlers : list HandlerFunc
}.

(** Observable moments of a run. *)
Inductive Event : Type :=
| EvShutdownCalled (s : nat)
| EvShutdownReturned (s : nat)
| EvListening (l : Listener)
| EvPortStored (p : Z)
| RunReturned (err : option error)
| ReloadReturned (err : option error)
| PortReturned (p : Z)
| StopAcknowledged (v : bool).

Record World : Type := mk_World {
  gs : ginService;
  (** package variables *)
  ginMode : string;
  ginNoLogger : bool;
  (** [gin.SetMode(gin.ReleaseMode)] was called *)
  releaseMode : bool;
  (** the heap: routers and servers, named by their index *)
  engines : list Engine;
  servers : list myHttpServer;
  (** listening sockets the process holds open *)
  bound : list Listener;
  listen_calls : nat;
  env : Env;
  trace : list Event
}.

Definition set_gs (f : ginService -> ginService) (w : World) : World :=
  mk_World (f (gs w)) (ginMode w) (ginNoLogger w) (releaseMode w)
           (engines w) (servers w) (bound w) (listen_calls w) (env w)
           (trace w).

Definition set_engines (f : list Engine -> list Engine) (w : World) : World :=
  mk_World (gs w) (ginMode w) (ginNoLogger w) (releaseMode w)
           (f (engines w)) (servers w) (bound w) (listen_calls w) (env w)
           (trace w).

Definition set_servers (f : list myHttpServer -> list myHttpServer)
                       (w : World) : World :=
  mk_World (gs w) (ginMode w) (ginNoLogger w) (releaseMode w)
           (engines w) (f (servers w)) (bound w) (listen_calls w) (env w)
           (trace w).

Definition set_bound (f : list Listener -> list Listener) (w : World)
  : World :=
  mk_World (gs w) (ginMode w) (ginNoLogger w) (releaseMode w)
           (engines w) (servers w) (f (bound w)) (listen_calls w) (env w)
           (trace w).

Definition emit (e : Event) (w : World) : World :=
  mk_World (gs w) (ginMode w) (ginNoLogger w) (releaseMode w)
           (engines w) (servers w) (bound w) (listen_calls w) (env w)
           (trace w ++ [e]).

(** Process exit: the system closes every socket of the process. *)
Definition on_exit (w : World) : World := set_bound (fun _ => []) w.

Definition with_Config (c : Config) (g : ginService) : ginService :=
  mk_ginService c (isEnabled g) (name g) (logger g) (svr g) (router g)
                (mu g) (handlers g).

Definition with_Port (p : Z) (g : ginService) : ginService :=
  with_Config (mk_Config p (BindAddr (Config_ g)) (GinNoDefault (Config_ g)))
              g.

Definition with_isEnabled (b : bool) (g : ginService) : ginService :=
  mk_ginService (Config_ g) b (name g) (logger g) (svr g) (router g)
                (mu g) (handlers g).

Definition with_logger (l : option string) (g : ginService) : ginService :=
  mk_ginService (Config_ g) (isEnabled g) (name g) l (svr g) (router g)
                (mu g) (handlers g).

Definition with_svr (s : option nat) (g : ginService) : ginService :=
  mk_ginService (Config_ g) (isEnabled g) (name g) (logger g) s (router g)
                (mu g) (handlers g).

Definition with_router (r : option nat) (g : ginService) : ginService :=
  mk_ginService (Config_ g) (isEnabled g) (name g) (logger g) (svr g) r
                (mu g) (handlers g).

Definition with_mu (b : bool) (g : ginService) : ginService :=
  mk_ginService (Config_ g) (isEnabled g) (name g) (logger g) (svr g)
                (router g) b (handlers g).

Definition with_handlers (hs : list HandlerFunc) (g : ginService)
  : ginService :=
  mk_ginService (Config_ g) (isEnabled g) (name g) (logger g) (svr g)
                (router g) (mu g) hs.

(** Apply [f] to heap cell [i]. *)
Fixpoint modify (A : Type) (i : nat) (f : A -> A) (l : list A) : list A :=
  match l, i with
  | [], _ => []
  | h :: t, O => f h :: t
  | h :: t, S j => h :: modify j f t
  end.

Definition remove_listener (id : nat) (ls : list Listener) : list Listener :=
  filter (fun l => negb (Nat.eqb (lis_id l) id)) ls.

Definition remove_listeners (ids : list nat) (ls : list Listener)
  : list Listener :=
  filter (fun l => negb (existsb (Nat.eqb (lis_id l)) ids)) ls.

(** *** The component *)

(** [New] *)
Definition New (n : string) : ginService :=
  mk_ginService (mk_Config 0 "" false) false n None None None false [].

Definition Name (g : ginService) : string := (name g ++ "-gin")%string.

(** [InitFlags]: registering a flag stores its default in the variable. *)
Definition InitFlags (w : World) : World :=
  let g := gs w in
  mk_World (with_Config (mk_Config defaultPort "" (GinNoDefault (Config_ g)))
                        g)
           "" false (releaseMode w) (engines w) (servers w) (bound w)
           (listen_calls w) (env w) (trace w).

(** The [if !gs.GinNoDefault { ... }] block of [Configure]. *)
Definition default_middleware (noDefault noLogger : bool) (n : string)
                              (e : Engine) : Engine :=
  if negb noDefault then
    let e := if negb noLogger then Use "gin.Logger" e else e in
    let e := Use "middleware.PanicLogger" e in
    Use ("otelgin.Middleware:" ++ n)%string e
  else e.

(** [Configure]: fresh logger, fresh router with the default middleware,
    fresh server whose handler is that router. *)
Definition Configure : M World (option error) :=
  write (fun w =>
    let w := set_gs (with_logger (Some "gin")) w in
    mk_World (gs w) (ginMode w) (ginNoLogger w)
             (if String.eqb (ginMode w) "release" then true
              else releaseMode w)
             (engines w) (servers w) (bound w) (listen_calls w) (env w)
             (trace w)) ;;;
  write (fun w =>
    let r := List.length (engines w) in
    set_gs (with_router (Some r))
           (set_engines (fun es => es ++ [gin_New]) w)) ;;;
  write (fun w =>
    match router (gs w) with
    | Some r =>
        set_engines
          (modify r (default_middleware (GinNoDefault (Config_ (gs w)))
                                        (ginNoLogger w) (name (gs w)))) w
    | None => w
    end) ;;;
  atomic (fun w =>
    let s := List.length (servers w) in
    Some (set_gs (with_svr (Some s))
            (set_servers
               (fun ss => ss ++ [mk_myHttpServer (router (gs w)) [] false])
               w),
          None)).

(** [gs.logger.Fatalf]: the logger is a logrus entry, whose [Fatalf] writes
    the message and then ends the process with [os.Exit(1)]. *)
Definition Fatalf : M World unit := exit 1.

(** [net.Listen("tcp", addr)] *)
Definition net_Listen (addr : string)
  : M World (option Listener * option error) :=
  atomic (fun w =>
    let n := listen_calls w in
    let r := os_listen (listen_script (env w) n) n addr in
    let w := mk_World (gs w) (ginMode w) (ginNoLogger w) (releaseMode w)
                      (engines w) (servers w) (bound w) (S n) (env w)
                      (trace w) in
    match fst r with
    | Some l => Some (emit (EvListening l) (set_bound (fun b => b ++ [l]) w), r)
    | None => Some (w, r)
    end).

(** [getPort]: the port of the listener's address (the address of a live
    TCP listener always resolves); a nil listener is a nil dereference. *)
Definition getPort (lis : option Listener) : M World Z :=
  match lis with
  | Some l => ret (lis_port l)
  | None => panic "invalid memory address or nil pointer dereference"
  end.

Definition track (l : Listener) (srv : myHttpServer) : myHttpServer :=
  mk_myHttpServer (Handler srv) (tracked srv ++ [lis_id l]) (inShutdown srv).

Definition untrack (l : Listener) (srv : myHttpServer) : myHttpServer :=
  mk_myHttpServer (Handler srv)
                  (filter (fun i => negb (Nat.eqb i (lis_id l))) (tracked srv))
                  (inShutdown srv).

Definition begin_shutdown (srv : myHttpServer) : myHttpServer :=
  mk_myHttpServer (Handler srv) [] true.

(** [gs.svr.Serve(lis)], that is [HttpServer.Serve], as the rest of the
    process sees it.  On entry the server refuses (and closes the listener)
    when it is already shut down, and tracks the listener otherwise. *)
Definition serve_enter (s : nat) (l : Listener) : M World bool :=
  atomic (fun w =>
    match nth_error (servers w) s with
    | None => None
    | Some srv =>
        if inShutdown srv
        then Some (set_bound (remove_listener (lis_id l)) w, false)
        else Some (set_servers (modify s (track l)) w, true)
    end).

(** Then the accept loop blocks until the server is shut down or accepting
    fails for good, and the listener is closed on the way out. *)
Definition serve_loop (s : nat) (l : Listener) : M World (option error) :=
  atomic (fun w =>
    match nth_error (servers w) s with
    | None => None
    | Some srv =>
        let w' := set_bound (remove_listener (lis_id l))
                    (set_servers (modify s (untrack l)) w) in
        if inShutdown srv then Some (w', Some ErrServerClosed)
        else match serve_fault (env w) (lis_id l) with
             | Some e => Some (w', Some e)
             | None => None
             end
    end).

Definition svr_Serve (s : option nat) (lis : option Listener)
  : M World (option error) :=
  match s, lis with
  | Some s, Some l =>
      tracked_ok <- serve_enter s l ;;
      if negb tracked_ok then ret (Some ErrServerClosed)
      else serve_loop s l
  | _, _ => panic "invalid memory address or nil pointer dereference"
  end.

(** [http.Server.Shutdown(context.Background())]: raise the shutdown flag
    and close every tracked listener, then wait for the connections and
    return. *)
Definition Shutdown (s : nat) : M World (option error) :=
  write (fun w =>
    let ids := match nth_error (servers w) s with
               | Some srv => tracked srv
               | None => []
               end in
    emit (EvShutdownCalled s)
      (set_bound (remove_listeners ids)
         (set_servers (modify s begin_shutdown) w))) ;;;
  write (emit (EvShutdownReturned s)) ;;;
  ret None.

(** The loop [for _, hdl := range gs.handlers { hdl(gs.router) }], on the
    slice [hs] the range expression evaluated to. *)
Definition install (hs : list HandlerFunc) : M World unit :=
  atomic_or_panic (fun w =>
    match router (gs w) with
    | Some r =>
        Some (set_engines
                (modify r (fun e => fold_left (fun e hdl => hdl e) hs e)) w,
              inr tt)
    | None =>
        match hs with
        | [] => Some (w, inr tt)
        | _ => Some (w, inl "invalid memory address or nil pointer dereference")
        end
    end).

(** [Run] *)
Definition Run : M World (option error) :=
  enabled <- read (fun w => isEnabled (gs w)) ;;
  if negb enabled then ret None
  else
    cerr <- Configure ;;
    match cerr with
    | Some err => ret (Some err)
    | None =>
        hs <- read (fun w => handlers (gs w)) ;;
        install hs ;;;
        addr <- read (fun w => formatBindAddr (BindAddr (Config_ (gs w)))
                                              (Port (Config_ (gs w)))) ;;
        r <- net_Listen addr ;;
        (match snd r with
         | Some _ => Fatalf
         | None => ret tt
         end) ;;;
        p <- getPort (fst r) ;;
        write (fun w => emit (EvPortStored p) (set_gs (with_Port p) w)) ;;;
        s <- read (fun w => svr (gs w)) ;;
        err <- svr_Serve s (fst r) ;;
        match err with
        | Some e => if error_eqb e ErrServerClosed then ret None
                    else ret (Some e)
        | None => ret None
        end
    end.

(** [Port]: lock, read, unlock (deferred), return. *)
Definition ginService_Port : M World Z :=
  atomic (fun w => if mu (gs w) then None
                   else Some (set_gs (with_mu true) w, tt)) ;;;
  p <- read (fun w => Port (Config_ (gs w))) ;;
  write (set_gs (with_mu false)) ;;;
  ret p.

(** [Stop] *)
Definition Stop : M World chan :=
  c <- make_chan ;;
  go (s <- read (fun w => svr (gs w)) ;;
      (match s with
       | Some _ =>
           s' <- read (fun w => svr (gs w)) ;;
           match s' with
           | Some p => _ <- Shutdown p ;; ret tt
           | None => panic "invalid memory address or nil pointer dereference"
           end
       | None => ret tt
       end) ;;;
      send c true) ;;;
  ret c.

(** [URI] *)
Definition URI (g : ginService) : string :=
  formatBindAddr (BindAddr (Config_ g)) (Port (Config_ g)).

(** [AddHandler] *)
Definition AddHandler (hdl : HandlerFunc) : M World unit :=
  write (set_gs (with_isEnabled true)) ;;;
  write (set_gs (fun g => with_handlers (handlers g ++ [hdl]) g)).

(** [Reload] *)
Definition Reload (config : Config) : M World (option error) :=
  write (set_gs (with_Config config)) ;;;
  c <- Stop ;;
  _ <- recv c ;;
  Run.

Definition GetConfig (g : ginService) : Config := Config_ g.
Definition IsEnabled (g : ginService) : bool := isEnabled g.
Definition IsRunning (g : ginService) : bool :=
  match svr g with Some _ => true | None => false end.

(** *** Callers *)

Definition call_Run : Proc World :=
  thread (r <- Run ;; write (emit (RunReturned r))).

Definition call_Reload (config : Config) : Proc World :=
  thread (r <- Reload config ;; write (emit (ReloadReturned r))).

Definition call_Port : Proc World :=
  thread (p <- ginService_Port ;; write (emit (PortReturned p))).

Definition call_Stop : Proc World :=
  thread (c <- Stop ;; v <- recv c ;; write (emit (StopAcknowledged v))).

Definition call_AddHandler (hdl : HandlerFunc) : Proc World :=
  thread (AddHandler hdl).

(** The process right after [New]: nothing allocated, nothing bound. *)
Definition fresh (n : string) (e : Env) : World :=
  mk_World (New n) "" false false [] [] [] 0 e [].

End Gin.

(* ================================================================== *)
(** ** Scenarios *)
(* ================================================================== *)

Module Scenario.

Import Gin.

(** An answer for the first request and one for every later request. *)
Definition script2 (A : Type) (first later : A) (n : nat) : A :=
  match n with
  | O => first
  | S _ => later
  end.

Definition env2 (o0 o1 : ListenOutcome) (f0 f1 : option error) : Env :=
  mk_Env (script2 o0 o1) (script2 f0 f1).

(** A process that holds the service [g] and has not run it: no router or
    server allocated, no socket open, nothing observed yet.  [mode] and
    [nolog] are the package flags, [rel] says whether gin already is in
    release mode. *)
Definition process (g : ginService) (mode : string) (nolog rel : bool)
                   (e : Env) : World :=
  mk_World g mode nolog rel [] [] [] 0 e [].

(** [Run] is called. *)
Definition booting (g : ginService) (mode : string) (nolog rel : bool)
                   (e : Env) : State World :=
  start (process g mode nolog rel e) [call_Run].

(** What is left of a call of [Run] that sits in the accept loop of server
    [s] on listener [l]. *)
Definition serving_goroutine (s : nat) (l : Listener) : Proc World :=
  thread (err <- serve_loop s l ;;
          r <- match err with
               | Some e => if error_eqb e ErrServerClosed then ret None
                           else ret (Some e)
               | None => ret None
               end ;;
          write (emit (RunReturned r))).

(** A running listener: the service is enabled, its server (cell 0, with
    whatever handler [h]) tracks the one open listener (socket 0, at
    whatever address), and the goroutine of [Run] sits in the accept loop.
    The rest of the service, the router [e0] and the flags are arbitrary. *)
Definition running (g : ginService) (h : option nat) (e0 : Engine)
                   (addr : string) (port : Z) (mode : string)
                   (nolog rel : bool) (e : Env) : State World :=
  start (mk_World (with_svr (Some 0%nat) (with_isEnabled true g))
                  mode nolog rel [e0] [mk_myHttpServer h [0%nat] false]
                  [mk_Listener 0 addr port] 1 e [])
        [serving_goroutine 0 (mk_Listener 0 addr port)].

(** The router [Configure] builds for the service named [n] with
    configuration [c], and the handlers [hs] installed on it. *)
Definition router_with (n : string) (c : Config) (nolog : bool)
                       (hs : list HandlerFunc) : Engine :=
  fold_left (fun e hdl => hdl e) hs
            (default_middleware (GinNoDefault c) nolog n gin_New).

(** The port the system binds for configuration [c]. *)
Definition port_bound (c : Config) (eph : positive) : Z :=
  bound_port (port_of_addr (formatBindAddr (BindAddr c) (Port c))) eph.

(** The service once its first [Run] has got its socket: logger, router and
    server set, the bound port stored. *)
Definition after_bind (g : ginService) (eph : positive) : ginService :=
  mk_ginService (mk_Config (port_bound (Config_ g) eph)
                           (BindAddr (Config_ g)) (GinNoDefault (Config_ g)))
                true (name g) (Some "gin") (Some 0%nat) (Some 0%nat) (mu g)
                (handlers g).

(** What the calls have returned so far, read off the trace. *)
Fixpoint run_returns (tr : list Event) : list (option error) :=
  match tr with
  | [] => []
  | RunReturned r :: t => r :: run_returns t
  | _ :: t => run_returns t
  end.


Fixpoint port_returns (tr : list Event) : list Z :=
  match tr with
  | [] => []
  | PortReturned p :: t => p :: port_returns t
  | _ :: t => port_returns t
  end.

Fixpoint stored_ports (tr : list Event) : list Z :=
  match tr with
  | [] => []
  | EvPortStored p :: t => p :: stored_ports t
  | _ :: t => stored_ports t
  end.

Fixpoint listened (tr : list Event) : list Listener :=
  match tr with
  | [] => []
  | EvListening l :: t => l :: listened t
  | _ :: t => listened t
  end.

Fixpoint shutdowns_returned (tr : list Event) : list nat :=
  match tr with
  | [] => []
  | EvShutdownReturned s :: t => s :: shutdowns_returned t
  | _ :: t => shutdowns_returned t
  end.




(** A start-up like that of [examples/httpservice]: default flags, one
    handler that installs the health-check route. *)
Definition ping : HandlerFunc :=
  fun e => mk_Engine (middleware e) (routes e ++ ["GET /ping"]).

Definition demo_config : Config := mk_Config defaultPort "" false.

Definition demo : ginService :=
  mk_ginService demo_config true "demo" None None None false [ping].

(** The same service asked to let the system choose the port. *)
Definition demo0 : ginService :=
  mk_ginService (mk_Config 0 "" false) true "demo" None None None false
                [ping].

Definition address_in_use : error :=
  ErrorString "listen tcp :3000: bind: address already in use".

Definition too_many_files : error :=
  ErrorString "accept tcp [::]:3000: accept4: too many open files".

Definition demo_env : Env :=
  env2 (ListenOK 40000) (ListenOK 40001) None None.

End Scenario.

(* ================================================================== *)
(** ** What [Run] of the OpenTelemetry plugin is asked for *)
(* ================================================================== *)

Module OtelRun.

Import Otel.

(** The providers the feature flags ask for, in the order [SetupOTelSDK]
    starts them. *)
Definition requested (p : OtelPlugin) : list ProviderKind :=
  (if isEnabledTrace p then [Tracer] else [])
  ++ (if isEnabledMetric p then [Meter] else [])
  ++ (if isEnabledLog p then [LoggerP] else []).

(** The world seen from a call that found [ps] providers and [cls] closures
    already there. *)
Definition lift (ps : list Provider) (cls : list (list nat)) (w : World)
  : World :=
  mk_World (op w) (ps ++ providers w)
           (cls ++ map (map (Nat.add (List.length ps))) (closures w))
           (env w).

(** The errors of shutting down the providers of kinds [ks], joined in
    order. *)
Definition cleanup_errors (e : Env) (ks : list ProviderKind) : option error :=
  fold_left (fun acc k => errors_Join acc (provider_shutdown_err e k)) ks
            None.

Definition started (x : Exporter) (k : ProviderKind) : Provider :=
  mk_Provider k x true.

Definition stopped (x : Exporter) (k : ProviderKind) : Provider :=
  mk_Provider k x false.
End OtelRun.

(* ================================================================== *)
(** ** plugin/otel: the package-level set-up *)
(* ================================================================== *)

(** The function [SetupOTelSDK(ctx, serviceName, serviceVersion)] of the
    package, which the gin listener used before the plugin existed: the
    three providers are always started, each on its OTLP gRPC exporter. *)
Module OtelSDK.

Import Otel.

(** [newTraceProvider], [newMeterProvider], [newLoggerProvider] *)
Definition newProvider (k : ProviderKind) (w : World) : Provider + error :=
  match new_exporter_err (env w) k with
  | Some e => inr e
  | None => inl (mk_Provider k OtlpGRPC true)
  end.

(** One "set up the provider" block, on the world where the closure lives
    in cell [cl]; [inr err] is the early return through [handleErr]. *)
Definition setup_provider (k : ProviderKind) (cl : nat) (w : World)
  : World + (World * option error) :=
  match newProvider k w with
  | inr err =>
      let '(w', serr) := call_shutdown cl w in
      inr (w', errors_Join (Some err) serr)
  | inl p =>
      inl (mk_World (op w) (providers w ++ [p])
                    (upd cl (nth cl (closures w) []
                             ++ [List.length (providers w)]) (closures w))
                    (env w))
  end.

Definition SetupOTelSDK (w : World) : World * (nat * option error) :=
  let cl := List.length (closures w) in
  let w0 := mk_World (op w) (providers w) (closures w ++ [[]]) (env w) in
  match setup_provider Tracer cl w0 with
  | inr (w', err) => (w', (cl, err))
  | inl w1 =>
  match setup_provider Meter cl w1 with
  | inr (w', err) => (w', (cl, err))
  | inl w2 =>
  match setup_provider LoggerP cl w2 with
  | inr (w', err) => (w', (cl, err))
  | inl w3 => (w3, (cl, None))
  end end end.

End OtelSDK.

(* ================================================================== *)
(** ** logger/logger.go *)
(* ================================================================== *)

Module Logger.

Import Gin.

(** [logrus.Level], by its numeric value: the more verbose, the higher. *)
Inductive Level : Type :=
| PanicLevel | FatalLevel | ErrorLevel | WarnLevel | InfoLevel | DebugLevel
| TraceLevel.

Definition level_value (l : Level) : Z :=
  match l with
  | PanicLevel => 0
  | FatalLevel => 1
  | ErrorLevel => 2
  | WarnLevel => 3
  | InfoLevel => 4
  | DebugLevel => 5
  | TraceLevel => 6
  end.

(** [logrus.Fields], a map from field names to values: an association list
    with at most one pair for a key. *)
Definition Fields : Type := list (string * string).

Fixpoint lookup (k : string) (d : Fields) : option string :=
  match d with
  | [] => None
  | (k', v) :: t => if String.eqb k' k then Some v else lookup k t
  end.

(** [data[k] = v] *)
Definition set_field (k v : string) (d : Fields) : Fields :=
  (k, v) :: filter (fun kv => negb (String.eqb (fst kv) k)) d.

(** A [*logrus.Entry]: the level of its logger and its data fields. *)
Record Entry : Type := mk_Entry {
  Logger_Level : Level;
  Data : Fields
}.

(** [Entry.WithField]: a new entry with the data copied and the field
    set. *)
Definition WithField (key value : string) (e : Entry) : Entry :=
  mk_Entry (Logger_Level e) (set_field key value (Data e)).

(** [Entry.WithFields] *)
Definition WithFields (fields : Fields) (e : Entry) : Entry :=
  fold_left (fun e kv => WithField (fst kv) (snd kv) e) fields e.

(** [strings.LastIndex]: the index of the last occurrence, or -1. *)
Fixpoint strings_LastIndex (s substr : string) : Z :=
  match s with
  | EmptyString => if String.prefix substr "" then 0 else -1
  | String _ t =>
      let r := strings_LastIndex t substr in
      if (0 <=? r)%Z then (r + 1)%Z
      else if String.prefix substr s then 0%Z else (-1)%Z
  end.

(** The slice [s[n:]]. *)
Fixpoint slice_from (n : nat) (s : string) : string :=
  match n, s with
  | O, _ => s
  | S m, String _ t => slice_from m t
  | S _, EmptyString => EmptyString
  end.

(** [debugSrc]; [caller] is what [runtime.Caller(2)] reports: file and line
    of the caller, or nothing. *)
Definition debugSrc (caller : option (string * Z)) (l : Entry) : Entry :=
  match lookup "source" (Data l) with
  | Some _ => l
  | None =>
      let file := match caller with
                  | None => "<???>"
                  | Some (file, _) =>
                      let slash := strings_LastIndex file "/" in
                      slice_from (Z.to_nat (slash + 1)) file
                  end in
      let line := match caller with
                  | None => 1%Z
                  | Some (_, line) => line
                  end in
      WithField "source" (file ++ ":" ++ itoa line) l
  end.

(** What has been written to the log. *)
Record Line : Type := mk_Line {
  line_level : Level;
  line_data : Fields;
  line_message : string
}.

(** [Entry.Debug], [Entry.Debugln], [Entry.Debugf] of logrus, on the
    formatted message: written when the level of the logger allows debug
    lines. *)
Definition Entry_Debug (msg : string) (e : Entry) (out : list Line)
  : list Line :=
  if (level_value DebugLevel <=? level_value (Logger_Level e))%Z
  then out ++ [mk_Line DebugLevel (Data e) msg]
  else out.

(** [Debug], [Debugln], [Debugf] and [Print] share one body, up to how the
    arguments are formatted into [msg]. *)
Definition Debug (caller : option (string * Z)) (msg : string) (l : Entry)
                 (out : list Line) : list Line :=
  if (level_value DebugLevel <=? level_value (Logger_Level l))%Z
  then Entry_Debug msg (debugSrc caller l) out
  else out.

Definition Debugln := Debug.
Definition Debugf := Debug.
Definition Print := Debug.

(** [With], [Withs], [WithSrc] *)
Definition With (key value : string) (l : Entry) : Entry :=
  WithField key value l.

Definition Withs (fields : Fields) (l : Entry) : Entry :=
  WithFields fields l.

Definition WithSrc (caller : option (string * Z)) (l : Entry) : Entry :=
  debugSrc caller l.

End Logger.

Definition nonempty (A : Type) (l : list A) : bool :=
  match l with
  | [] => false
  | _ :: _ => true
  end.

(* ================================================================== *)
(** ** Facts about schedules *)
(* ================================================================== *)

Section KernelFacts.

Variable W : Type.
Variable on_exit : W -> W.

Lemma step_in_succs (i : nat) (st st' : State W) :
  step_thread on_exit i st = Some st' -> In st' (succs on_exit st).
Proof.
  intros H. unfold succs. apply in_flat_map. exists i. split.
  - apply in_seq. split; [lia|]. simpl.
    unfold step_thread in H.
    destruct (halted st); [discriminate|].
    destruct (nth_error (pool st) i) eqn:E; [|discriminate].
    apply nth_error_Some. congruence.
  - rewrite H. now left.
Qed.

Lemma flat_map_nil_inv (A B : Type) (f : A -> list B) (l : list A) (x : A) :
  flat_map f l = [] -> In x l -> f x = [].
Proof.
  induction l as [|y t IH]; simpl; [tauto|].
  intros H [->|Hin].
  - now apply app_eq_nil in H.
  - apply IH; [now apply app_eq_nil in H | assumption].
Qed.

Lemma frontier_succ (n : nat) (st st' : State W) :
  frontier on_exit (S n) st = [] -> In st' (succs on_exit st) ->
  exists m, n = S m /\ frontier on_exit (S m) st' = [].
Proof.
  intros Hf Hin.
  change (flat_map (frontier on_exit n) (succs on_exit st) = []) in Hf.
  apply flat_map_nil_inv with (x := st') in Hf; [|assumption].
  destruct n as [|m]; [discriminate|]. now exists m.
Qed.

(** When no execution from [st] is longer than [n] steps, whatever a
    schedule reaches is among the states explored to depth [n]. *)
Lemma run_in_reach (sched : list nat) :
  forall (n : nat) (st : State W),
    frontier on_exit (S n) st = [] ->
    In (run on_exit sched st) (reach on_exit n st).
Proof.
  induction sched as [|i rest IH]; intros n st Hf.
  - destruct n; now left.
  - simpl. destruct (step_thread on_exit i st) as [st'|] eqn:E.
    + apply step_in_succs in E.
      destruct (@frontier_succ n st _ Hf E) as (m & -> & Hm).
      change (reach on_exit (S m) st)
        with (st :: flat_map (reach on_exit m) (succs on_exit st)).
      right. apply in_flat_map. exists st'. split; [assumption|].
      now apply IH.
    + now apply IH.
Qed.

Lemma map_eq_In (A B : Type) (f g : A -> B) (l : list A) (x : A) :
  map f l = map g l -> In x l -> f x = g x.
Proof.
  induction l as [|y t IH]; simpl; [tauto|].
  intros H [->|Hin]; injection H; auto.
Qed.

(** The proof principle for "under every schedule": compare two
    observations on the explored states. *)
Lemma always_eq (A : Type) (f g : State W -> A) (n : nat) (st : State W) :
  frontier on_exit (S n) st = [] ->
  map f (reach on_exit n st) = map g (reach on_exit n st) ->
  forall sched, f (run on_exit sched st) = g (run on_exit sched st).
Proof.
  intros Hf Hmap sched. eapply map_eq_In; [exact Hmap|].
  now apply run_in_reach.
Qed.

(** Executions are no longer than the exploration depth. *)
Lemma busy_bound (sched : list nat) :
  forall (n : nat) (st : State W),
    frontier on_exit (S n) st = [] ->
    busy on_exit sched st = true -> (List.length sched <= n)%nat.
Proof.
  induction sched as [|i rest IH]; intros n st Hf Hb; simpl; [lia|].
  simpl in Hb. destruct (step_thread on_exit i st) as [st'|] eqn:E;
    [|discriminate].
  apply step_in_succs in E.
  destruct (@frontier_succ n st _ Hf E) as (m & -> & Hm).
  specialize (IH m st' Hm Hb). lia.
Qed.

End KernelFacts.

Lemma pair_inv (A B : Type) (a c : A) (b d : B) :
  (a, b) = (c, d) -> a = c /\ b = d.
Proof. intros H. now injection H. Qed.

Lemma when_inv (A : Type) (b : bool) (x y : A) :
  (if b then Some x else None) = (if b then Some y else None) ->
  b = true -> x = y.
Proof. intros H ->. now injection H. Qed.

Lemma In_nonempty (A : Type) (x : A) (l : list A) :
  In x l -> nonempty l = true.
Proof. destruct l; simpl; [tauto|reflexivity]. Qed.

(* ================================================================== *)
(** ** Facts about addresses *)
(* ================================================================== *)

Module StringFacts.
Import Gin.

Lemma prefix_app (sub s : string) :
  String.prefix sub s = true <-> exists post, s = (sub ++ post)%string.
Proof.
  revert s. induction sub as [|a sub IH]; intros s.
  - destruct s; simpl; split; intros _; eauto.
  - destruct s as [|b s]; simpl.
    + split; [discriminate|]. intros [post H]. discriminate.
    + destruct (Ascii.ascii_dec a b) as [->|Hne].
      * rewrite IH. split; intros [post H]; exists post; congruence.
      * split; [discriminate|]. intros [post H]. congruence.
Qed.

Lemma strings_Contains_spec (s sub : string) :
  strings_Contains s sub = true <->
  exists pre post, s = (pre ++ sub ++ post)%string.
Proof.
  induction s as [|c t IH]; cbn [strings_Contains].
  - destruct (String.prefix sub "") eqn:E.
    + split; [|reflexivity]. intros _. apply prefix_app in E.
      destruct E as [post H]. now exists "", post.
    + split; [discriminate|]. intros (pre & post & H).
      destruct pre; [|discriminate]. simpl in H.
      assert (String.prefix sub "" = true) by (apply prefix_app; eauto).
      congruence.
  - destruct (String.prefix sub (String c t)) eqn:E.
    + split; [|reflexivity]. intros _. apply prefix_app in E.
      destruct E as [post H]. now exists "", post.
    + rewrite IH. split.
      * intros (pre & post & H). exists (String c pre), post. simpl. congruence.
      * intros (pre & post & H). destruct pre as [|c' pre]; simpl in H.
        -- assert (String.prefix sub (String c t) = true)
             by (apply prefix_app; eauto). congruence.
        -- exists pre, post. congruence.
Qed.

Lemma after_last_colon_app (s d : string) :
  after_last_colon d = None ->
  after_last_colon (s ++ ":" ++ d) = Some d.
Proof.
  intros Hd. induction s as [|c t IH]; simpl.
  - now rewrite Hd.
  - simpl in IH. now rewrite IH.
Qed.

Lemma digits_no_colon (u : Decimal.uint) :
  after_last_colon (NilEmpty.string_of_uint u) = None.
Proof.
  induction u; simpl; try rewrite IHu; reflexivity.
Qed.

Lemma itoa_nonneg (p : Z) :
  (0 <= p)%Z ->
  exists u, itoa p = NilZero.string_of_uint u /\ u <> Decimal.Nil /\
            Z.of_uint u = p.
Proof.
  intros Hp. unfold itoa.
  pose proof (DecimalZ.of_to p) as Hz.
  destruct p as [|q|q]; try lia; simpl in *.
  - exists (Decimal.D0 Decimal.Nil). repeat split. discriminate.
  - exists (Pos.to_uint q). repeat split; [|exact Hz].
    intros E. rewrite E in Hz. discriminate.
Qed.

Lemma port_of_addr_formatBindAddr (s : string) (p : Z) :
  (0 <= p)%Z -> port_of_addr (formatBindAddr s p) = Some p.
Proof.
  intros Hp. destruct (itoa_nonneg Hp) as (u & Hu & Hnil & Hz).
  unfold formatBindAddr, port_of_addr. rewrite Hu.
  rewrite after_last_colon_app.
  - rewrite NilZero.usu by assumption. now rewrite Hz.
  - unfold NilZero.string_of_uint. destruct u; try apply digits_no_colon.
    reflexivity.
Qed.
End StringFacts.

(* ================================================================== *)
(** ** The keep-alive listener *)
(* ================================================================== *)

Module HttpServerFacts.

Import HttpServer.

Lemma Accept_Incoming (tc : TCPConn) :
  Accept (Incoming tc) = (Some (with_keepalive tc), None).
Proof. reflexivity. Qed.

Lemma Accept_inv (o : AcceptOutcome) (c : TCPConn) (err : option error) :
  Accept o = (Some c, err) ->
  err = None /\ exists tc, o = Incoming tc /\ c = with_keepalive tc.
Proof.
  destruct o as [tc|e t]; simpl; intros H; [|discriminate].
  injection H as <- <-. split; [reflexivity|]. now exists tc.
Qed.

Lemma accept_loop_taken (script : list AcceptOutcome) :
  fst (accept_loop script) = map with_keepalive (taken script).
Proof.
  induction script as [|o rest IH]; [reflexivity|].
  destruct o as [tc|e [|]]; cbn [accept_loop taken].
  - rewrite Accept_Incoming. destruct (accept_loop rest) as [cs e].
    simpl in *. now rewrite IH.
  - simpl. exact IH.
  - reflexivity.
Qed.

(** C9: every connection that comes out of the wrapped listener, and so
    every connection the accept loop of the server takes, has keep-alive
    switched on and the keep-alive period set to three minutes
    (180000000000 ns); no connection the system delivered reaches the server
    without having passed through these two calls. *)
Theorem keepalive_on_every_accepted_connection :
  (forall (o : AcceptOutcome) (c : TCPConn) (err : option error),
      Accept o = (Some c, err) ->
      keepAlive c = true /\ keepAlivePeriod c = 180000000000%Z)
  /\ (forall (script : list AcceptOutcome),
         fst (Serve script) = map with_keepalive (taken script)
         /\ forall c, In c (fst (Serve script)) ->
                      keepAlive c = true
                      /\ keepAlivePeriod c = (3 * Minute)%Z
                      /\ (3 * Minute = 180 * Second)%Z).
Proof.
  split.
  - intros o c err H. apply Accept_inv in H.
    destruct H as (_ & tc & _ & ->). now split.
  - intros script. unfold Serve. cbn [fst].
    split; [apply accept_loop_taken|].
    intros c Hin. rewrite accept_loop_taken in Hin.
    apply in_map_iff in Hin. destruct Hin as (tc & <- & _).
    repeat split.
Qed.

Lemma keepalive_on_every_accepted_connection_witness :
  let script := [Incoming (mk_TCPConn 7 false 0);
                 AcceptError (ErrorString "accept: too many open files") true;
                 Incoming (mk_TCPConn 8 true 15000000000)] in
  In (mk_TCPConn 8 true 180000000000) (fst (Serve script))
  /\ keepAlive (mk_TCPConn 8 true 180000000000) = true
  /\ keepAlivePeriod (mk_TCPConn 8 true 180000000000) = (3 * Minute)%Z.
Proof.
  intros script.
  assert (Hin : In (mk_TCPConn 8 true 180000000000)
                   (fst (Serve script))) by (right; left; reflexivity).
  split; [exact Hin|].
  destruct (proj2 keepalive_on_every_accepted_connection script) as [_ H].
  destruct (H _ Hin) as (H1 & H2 & _). now split.
Defined.

End HttpServerFacts.


(* ================================================================== *)
(** ** The plugins *)
(* ================================================================== *)

Module SimpleFacts.

Import Simple.

(** X1: The simple plugin has no shutdown work: its channel yields [true],
    once, under every schedule. *)
Lemma simple_Stop_yields_once (s : simplePlugin) (sched : list nat) :
  let st := run on_exit sched (scenario s) in
  halted st = None /\ world st = s
  /\ (yielded 0 st = [] \/ yielded 0 st = [true])
  /\ (quiescent on_exit st = true -> yielded 0 st = [true]).
Proof.
  assert (Hf : frontier on_exit 5 (scenario s) = [])
    by (vm_compute; reflexivity).
  pose proof (always_eq on_exit
    (fun st => (halted st, world st,
                match yielded 0 st with
                | [] | [true] => true
                | _ => false
                end,
                if quiescent on_exit st then Some (yielded 0 st) else None))
    (fun st => (@None Halt, s, true,
                if quiescent on_exit st then Some [true] else None))
    4 _ Hf ltac:(vm_compute; reflexivity) sched) as H.
  cbv beta zeta in *.
  apply pair_inv in H. destruct H as [H H4].
  apply pair_inv in H. destruct H as [H H3].
  apply pair_inv in H. destruct H as [H1 H2].
  repeat (split; [assumption|]). split.
  - destruct (yielded 0 _) as [|[] [|]]; auto; discriminate.
  - intros Q. exact (@when_inv _ _ _ _ H4 Q).
Qed.

End SimpleFacts.

Module OtelFacts.

Import Otel.

Ltac explore := cbv -[call_shutdown]; reflexivity.

(** C1 fails on the otel plugin: the goroutine of [Stop] sends the
    acknowledgment first and calls the shutdown closure afterwards.  Under
    every schedule the plugin's world is untouched for as long as the channel
    has yielded nothing, so no cleanup starts before the acknowledgment has
    been received; and there is a schedule after which the caller holds the
    acknowledgment while every provider is still as it was, with all of the
    shutdown work still to do.  The cleanup only happens later, once the
    goroutine is scheduled again. *)
Theorem otel_Stop_acknowledges_before_shutdown (w : World) (cl : nat) :
  shutdown (op w) = Some cl ->
  (forall sched,
      let st := run on_exit sched (scenario w) in
      halted st = None
      /\ (yielded 0 st = [] -> world st = w)
      /\ (quiescent on_exit st = true ->
          yielded 0 st = [true] /\ world st = fst (call_shutdown cl w)))
  /\ (exists sched,
         let st := run on_exit sched (scenario w) in
         yielded 0 st = [true] /\ world st = w
         /\ shutdown_pending (world st) = shutdown_pending w).
Proof.
  intros Hs. destruct w as [p ps cls e].
  destruct p as [nm pf en sn sv ep pr tr me lg sh].
  simpl in Hs. subst sh.
  set (w := mk_World _ _ _ _).
  assert (Hf : frontier on_exit 6 (scenario w) = []) by explore.
  split.
  - intros sched.
    pose proof (always_eq on_exit
      (fun st => (halted st,
                  if nonempty (yielded 0 st) then None else Some (world st),
                  if quiescent on_exit st
                  then Some (yielded 0 st, world st) else None))
      (fun st => (@None Halt,
                  if nonempty (yielded 0 st) then None else Some w,
                  if quiescent on_exit st
                  then Some ([true], fst (call_shutdown cl w)) else None))
      5 _ Hf ltac:(explore) sched) as H.
    cbv beta zeta in *.
    apply pair_inv in H. destruct H as [H H3].
    apply pair_inv in H. destruct H as [H1 H2].
    split; [assumption|]. split.
    + intros Q. rewrite Q in H2. now injection H2.
    + intros Q. pose proof (@when_inv _ _ _ _ H3 Q) as H.
      now apply pair_inv in H.
  - exists [0%nat; 0%nat; 0%nat]. repeat split.
Qed.

(** At the plugin of a service that runs with the default features, the
    acknowledgment arrives while the tracer, meter and logger providers are
    all still running. *)
Lemma otel_Stop_acknowledges_before_shutdown_witness :
  shutdown (op example_running) = Some 0%nat
  /\ (let st := run on_exit [0%nat; 0%nat; 0%nat]
                    (scenario example_running) in
      yielded 0 st = [true]
      /\ map running (providers (world st)) = [true; true; true])
  /\ exists sched,
       let st := run on_exit sched (scenario example_running) in
       yielded 0 st = [true] /\ world st = example_running
       /\ shutdown_pending (world st) = shutdown_pending example_running.
Proof.
  assert (Hs : shutdown (op example_running) = Some 0%nat)
    by (vm_compute; reflexivity).
  split; [exact Hs|]. split; [split; vm_compute; reflexivity|].
  exact (proj2 (otel_Stop_acknowledges_before_shutdown example_running Hs)).
Defined.

(** A plugin that never ran (or runs disabled) has no shutdown closure:
    after the acknowledgment its goroutine calls a nil func and the process
    panics. *)
Lemma otel_Stop_without_Run_panics :
  let w := mk_World (InitFlags (NewOtelPlugin "otel")) [] [] example_env in
  let st := run on_exit [0%nat; 0%nat; 0%nat; 1%nat; 1%nat] (scenario w) in
  yielded 0 st = [true]
  /\ halted st
     = Some (Panicked "invalid memory address or nil pointer dereference").
Proof. split; reflexivity. Qed.

End OtelFacts.


(* ================================================================== *)
(** ** The gin listener *)
(* ================================================================== *)

Module GinFacts.

Import Gin Scenario StringFacts.

(** Explore the schedules of a scenario, leaving addresses and ports as
    they are written. *)
Ltac explore :=
  cbv -[formatBindAddr port_of_addr bound_port port_bound Z.eqb String.eqb];
  reflexivity.

Lemma port_bound_ephemeral (bind : string) (nd : bool) (eph : positive) :
  port_bound (mk_Config 0 bind nd) eph = Zpos eph.
Proof.
  unfold port_bound. simpl.
  now rewrite port_of_addr_formatBindAddr by lia.
Qed.


(** [Run] on an enabled service whose socket is granted comes to rest in a
    [running] state: twelve steps on, the router carries the handlers, the
    server tracks the listener, the bound port is stored and the goroutine
    sits in the accept loop. *)
Lemma Run_reaches_running
    (g : ginService) (mode : string) (nolog rel : bool) (eph : positive)
    (o1 : ListenOutcome) (f0 f1 : option error) :
  isEnabled g = true ->
  let e := env2 (ListenOK eph) o1 f0 f1 in
  let st := run on_exit (repeat 0%nat 12) (booting g mode nolog rel e) in
  let st' := running (after_bind g eph) (Some 0%nat)
                     (router_with (name g) (Config_ g) nolog (handlers g))
                     (formatBindAddr (BindAddr (Config_ g))
                                     (Port (Config_ g)))
                     (port_bound (Config_ g) eph) mode nolog
                     (if String.eqb mode "release" then true else rel) e in
  pool st = pool st'
  /\ gs (world st) = gs (world st')
  /\ engines (world st) = engines (world st')
  /\ servers (world st) = servers (world st')
  /\ bound (world st) = bound (world st')
  /\ listen_calls (world st) = listen_calls (world st')
  /\ releaseMode (world st) = releaseMode (world st')
  /\ nchan st = nchan st' /\ delivered st = delivered st'
  /\ halted st = halted st'.
Proof.
  intros Hen. destruct g as [c en n lg sv r m hs]. simpl in Hen. subst en.
  repeat split; explore.
Qed.

(** *** Bind addresses *)

(** C8, as the code has it: the address is bracket-quoted exactly when it
    contains a colon and no opening bracket; an address without a colon is
    never bracketed, and one that already carries a bracket is left as it
    is.  In every case the port follows after a colon, in decimal. *)
Theorem formatBindAddr_brackets (s : string) (p : Z) :
  (strings_Contains s ":" = true -> strings_Contains s "[" = false ->
   formatBindAddr s p = (("[" ++ s ++ "]") ++ ":" ++ itoa p)%string)
  /\ (strings_Contains s ":" = false ->
      formatBindAddr s p = (s ++ ":" ++ itoa p)%string)
  /\ (strings_Contains s "[" = true ->
      formatBindAddr s p = (s ++ ":" ++ itoa p)%string).
Proof.
  unfold formatBindAddr. repeat split.
  - intros -> ->. reflexivity.
  - intros ->. reflexivity.
  - intros ->. now rewrite andb_false_r.
Qed.

Lemma formatBindAddr_brackets_witness :
  formatBindAddr "::1" 3000 = "[::1]:3000"
  /\ formatBindAddr "localhost" 3000 = "localhost:3000"
  /\ formatBindAddr "[::1]" 3000 = "[::1]:3000".
Proof.
  split; [|split].
  - apply (proj1 (formatBindAddr_brackets "::1" 3000)); reflexivity.
  - apply (proj1 (proj2 (formatBindAddr_brackets "localhost" 3000)));
      reflexivity.
  - apply (proj2 (proj2 (formatBindAddr_brackets "[::1]" 3000)));
      reflexivity.
Defined.

(** C8 as stated fails: an address that contains a colon and is already
    bracketed is not bracketed again. *)
Lemma formatBindAddr_keeps_bracketed_address :
  strings_Contains "[::1]" ":" = true
  /\ formatBindAddr "[::1]" 80 = "[::1]:80"
  /\ formatBindAddr "[::1]" 80 <> "[[::1]]:80".
Proof.
  repeat split. discriminate.
Qed.

(** *** Default off *)

(** C5: a fresh listener is disabled and has no handlers; [AddHandler]
    appends its callback to the handler list and marks the listener
    enabled; and [Run] on a disabled listener returns nil at once, under
    every schedule, without calling [net.Listen] and with no socket bound. *)
Theorem default_off :
  (forall n, isEnabled (New n) = false /\ handlers (New n) = [])
  /\ (forall (w : World) (hdl : HandlerFunc),
        (forall sched,
           let st := run on_exit sched (start w [call_AddHandler hdl]) in
           quiescent on_exit st = true ->
           handlers (gs (world st)) = handlers (gs w) ++ [hdl]
           /\ isEnabled (gs (world st)) = true)
        /\ (forall sched,
              busy on_exit sched (start w [call_AddHandler hdl]) = true ->
              (List.length sched <= 2)%nat))
  /\ (forall (w : World), isEnabled (gs w) = false ->
        (forall sched,
           let st := run on_exit sched (start w [call_Run]) in
           bound (world st) = bound w
           /\ listen_calls (world st) = listen_calls w
           /\ halted st = None
           /\ (quiescent on_exit st = true ->
               trace (world st) = trace w ++ [RunReturned None]))
        /\ (forall sched,
              busy on_exit sched (start w [call_Run]) = true ->
              (List.length sched <= 2)%nat)).
Proof.
  split; [intros n; split; reflexivity|]. split.
  - intros w hdl.
    assert (Hf : frontier on_exit 3 (start w [call_AddHandler hdl]) = [])
      by explore.
    split.
    + intros sched.
      pose proof (always_eq on_exit
        (fun st => if quiescent on_exit st
                   then Some (handlers (gs (world st)),
                              isEnabled (gs (world st)))
                   else None)
        (fun st => if quiescent on_exit st
                   then Some (handlers (gs w) ++ [hdl], true)
                   else None) 2 _ Hf ltac:(explore) sched) as H.
      cbv beta zeta in *. intros Hq.
      pose proof (@when_inv _ _ _ _ H Hq) as H'.
      now apply pair_inv in H'.
    + intros sched Hb. eapply busy_bound; eauto.
  - intros w Hen.
    destruct w as [[c en n lg sv r m hs] mode nolog rel es ss b k e tr].
    simpl in Hen. subst en.
    set (w := mk_World _ _ _ _ _ _ _ _ _ _).
    assert (Hf : frontier on_exit 3 (start w [call_Run]) = []) by explore.
    split.
    + intros sched.
      pose proof (always_eq on_exit
        (fun st => (bound (world st), listen_calls (world st), halted st,
                    if quiescent on_exit st then Some (trace (world st))
                    else None))
        (fun st => (b, k, @None Halt,
                    if quiescent on_exit st
                    then Some (tr ++ [RunReturned None]) else None))
        2 _ Hf ltac:(explore) sched) as H.
      cbv beta zeta in *.
      apply pair_inv in H. destruct H as [H H4].
      apply pair_inv in H. destruct H as [H H3].
      apply pair_inv in H. destruct H as [H1 H2].
      repeat (split; [assumption|]).
      intros Hq. exact (@when_inv _ _ _ _ H4 Hq).
    + intros sched Hb. eapply busy_bound; eauto.
Qed.

Lemma default_off_witness :
  isEnabled (gs (fresh "demo" demo_env)) = false
  /\ (let st := run on_exit [0%nat; 0%nat]
                    (start (fresh "demo" demo_env) [call_Run]) in
      quiescent on_exit st = true
      /\ bound (world st) = []
      /\ trace (world st) = [RunReturned None])
  /\ (let st := run on_exit [0%nat; 0%nat]
                    (start (fresh "demo" demo_env) [call_AddHandler ping]) in
      quiescent on_exit st = true
      /\ isEnabled (gs (world st)) = true).
Proof.
  split; [reflexivity|]. split.
  - intros st.
    assert (Hq : quiescent on_exit st = true) by (vm_compute; reflexivity).
    assert (Hd : isEnabled (gs (fresh "demo" demo_env)) = false)
      by reflexivity.
    destruct (proj1 (proj2 (proj2 default_off) (fresh "demo" demo_env) Hd)
                [0%nat; 0%nat]) as (Hb & _ & _ & Ht).
    split; [exact Hq|]. split; [exact Hb | exact (Ht Hq)].
  - intros st.
    assert (Hq : quiescent on_exit st = true) by (vm_compute; reflexivity).
    split; [exact Hq|].
    exact (proj2 (proj1 (proj1 (proj2 default_off) (fresh "demo" demo_env)
                           ping) [0%nat; 0%nat] Hq)).
Defined.

(** *** Stop *)

(** C10: on a listener without a server ([svr] is nil, as after [New]),
    [Stop] never panics and never touches a server or a socket; the channel
    yields nothing but [true], at most once under every schedule, and
    exactly once in every execution that runs to its end, which it does
    within six steps. *)
Theorem Stop_without_server (w : World) :
  svr (gs w) = None ->
  (forall sched,
      let st := run on_exit sched (start w [call_Stop]) in
      halted st = None
      /\ servers (world st) = servers w
      /\ bound (world st) = bound w
      /\ trace (world st)
         = (if quiescent on_exit st
            then trace w ++ [StopAcknowledged true] else trace w)
      /\ (yielded 0 st = [] \/ yielded 0 st = [true])
      /\ (quiescent on_exit st = true -> yielded 0 st = [true]))
  /\ (forall sched,
         busy on_exit sched (start w [call_Stop]) = true ->
         (List.length sched <= 6)%nat)
  /\ (forall n e, svr (gs (fresh n e)) = None).
Proof.
  intros Hs.
  destruct w as [[c en n lg sv r m hs] mode nolog rel es ss b k e tr].
  simpl in Hs. subst sv.
  set (w := mk_World _ _ _ _ _ _ _ _ _ _).
  assert (Hf : frontier on_exit 7 (start w [call_Stop]) = []) by explore.
  split; [|split; [|reflexivity]].
  - intros sched.
    pose proof (always_eq on_exit
      (fun st => (halted st, servers (world st), bound (world st),
                  trace (world st),
                  match yielded 0 st with
                  | [] | [true] => true
                  | _ => false
                  end,
                  if quiescent on_exit st
                  then Some (yielded 0 st) else None))
      (fun st => (@None Halt, ss, b,
                  if quiescent on_exit st
                  then tr ++ [StopAcknowledged true] else tr,
                  true,
                  if quiescent on_exit st then Some [true] else None))
      6 _ Hf ltac:(explore) sched) as H.
    cbv beta zeta in *.
    apply pair_inv in H. destruct H as [H H6].
    apply pair_inv in H. destruct H as [H H5].
    apply pair_inv in H. destruct H as [H H4].
    apply pair_inv in H. destruct H as [H H3].
    apply pair_inv in H. destruct H as [H1 H2].
    repeat (split; [assumption|]). split.
    + destruct (yielded 0 _) as [|[] [|]]; auto; discriminate.
    + intros Q. exact (@when_inv _ _ _ _ H6 Q).
  - intros sched Hb. eapply busy_bound; eauto.
Qed.

Lemma Stop_without_server_witness :
  svr (gs (fresh "demo" demo_env)) = None
  /\ (let st := run on_exit (repeat 0%nat 3 ++ repeat 1%nat 2 ++ [0%nat])
                    (start (fresh "demo" demo_env) [call_Stop]) in
      quiescent on_exit st = true
      /\ halted st = None
      /\ yielded 0 st = [true]
      /\ trace (world st) = [StopAcknowledged true]).
Proof.
  assert (Hn : svr (gs (fresh "demo" demo_env)) = None) by reflexivity.
  split; [exact Hn|]. intros st.
  assert (Hq : quiescent on_exit st = true) by (vm_compute; reflexivity).
  destruct (proj1 (Stop_without_server (fresh "demo" demo_env) Hn)
              (repeat 0%nat 3 ++ repeat 1%nat 2 ++ [0%nat]))
    as (H1 & _ & _ & H4 & _ & H6).
  split; [exact Hq|]. split; [exact H1|].
  split; [exact (H6 Hq)|].
  fold st in H4. rewrite Hq in H4. exact H4.
Defined.

(** X10: On a running listener the acknowledgment of [Stop] comes after
    [Shutdown] has returned and the listener is closed (the part of C1 that
    concerns the gin listener). *)
Lemma gin_Stop_acknowledges_after_shutdown
    (g : ginService) (h : option nat) (e0 : Engine) (addr : string)
    (port : Z) (mode : string) (nolog rel : bool) (o0 o1 : ListenOutcome)
    (f0 f1 : option error) (sched : list nat) :
  let st := run on_exit sched
                (spawn call_Stop
                       (running g h e0 addr port mode nolog rel
                                (env2 o0 o1 f0 f1))) in
  halted st = None
  /\ (yielded 0 st = [] \/ yielded 0 st = [true])
  /\ (nonempty (yielded 0 st) = true ->
      shutdowns_returned (trace (world st)) = [0%nat]
      /\ bound (world st) = [])
  /\ (quiescent on_exit st = true -> yielded 0 st = [true]).
Proof.
  intros st.
  set (st0 := spawn call_Stop _) in *.
  assert (Hf : frontier on_exit 11 st0 = [])
    by (destruct f0 as [[|msg]|]; explore).
  pose proof (always_eq on_exit
    (fun s => (halted s,
               match yielded 0 s with
               | [] | [true] => true
               | _ => false
               end,
               if nonempty (yielded 0 s)
               then Some (shutdowns_returned (trace (world s)),
                          bound (world s))
               else None,
               if quiescent on_exit s then Some (yielded 0 s) else None))
    (fun s => (@None Halt, true,
               if nonempty (yielded 0 s)
               then Some ([0%nat], @nil Listener) else None,
               if quiescent on_exit s then Some [true] else None))
    10 _ Hf ltac:(destruct f0 as [[|msg]|]; explore) sched) as H.
  cbv beta in H. fold st in H.
  apply pair_inv in H. destruct H as [H H4].
  apply pair_inv in H. destruct H as [H H3].
  apply pair_inv in H. destruct H as [H1 H2].
  split; [assumption|]. split; [|split].
  - destruct (yielded 0 st) as [|[] [|]]; auto; discriminate.
  - intros Q. pose proof (@when_inv _ _ _ _ H3 Q) as H.
    now apply pair_inv in H.
  - intros Q. exact (@when_inv _ _ _ _ H4 Q).
Qed.

(** *** Run *)

(** C3, as the code has it.  On an enabled listener that got its socket,
    [Run] serves until the accept loop ends: when accepting fails with
    error [e], [Run] returns nil if [e] is the closed-server error and [e]
    otherwise; with nothing failing it returns nothing and keeps its
    listener open, and once [Stop] has shut the server down it returns nil.
    A failure of [net.Listen] is not returned: [Run] logs it with [Fatalf]
    and the process exits with status 1, no socket bound. *)
Theorem Run_outcome (g : ginService) (mode : string) (nolog rel : bool)
                    (o1 : ListenOutcome) (f1 : option error) :
  isEnabled g = true ->
  (forall (eph : positive) (e : error) (sched : list nat),
      let st := run on_exit sched
                    (booting g mode nolog rel
                             (env2 (ListenOK eph) o1 (Some e) f1)) in
      halted st = None
      /\ (quiescent on_exit st = true ->
          run_returns (trace (world st))
          = [if error_eqb e ErrServerClosed then None else Some e]))
  /\ (forall (eph : positive) (sched : list nat),
         let st := run on_exit sched
                       (booting g mode nolog rel
                                (env2 (ListenOK eph) o1 None f1)) in
         halted st = None /\ run_returns (trace (world st)) = []
         /\ (quiescent on_exit st = true ->
             map lis_id (bound (world st)) = [0%nat]))
  /\ (forall (h : option nat) (e0 : Engine) (addr : string) (port : Z)
             (o0 : ListenOutcome) (sched : list nat),
         let st := run on_exit sched
                       (spawn call_Stop
                              (running g h e0 addr port mode nolog rel
                                       (env2 o0 o1 None f1))) in
         halted st = None
         /\ (quiescent on_exit st = true ->
             run_returns (trace (world st)) = [None]
             /\ bound (world st) = []))
  /\ (forall (e : error) (f0 : option error) (sched : list nat),
         let st := run on_exit sched
                       (booting g mode nolog rel
                                (env2 (ListenErr e) o1 f0 f1)) in
         run_returns (trace (world st)) = []
         /\ bound (world st) = []
         /\ (quiescent on_exit st = true -> halted st = Some (Exited 1))).
Proof.
  intros Hen. destruct g as [c en n lg sv r m hs]. simpl in Hen. subst en.
  set (g := mk_ginService _ _ _ _ _ _ _ _).
  split; [|split; [|split]].
  - intros eph e sched.
    assert (Hf : frontier on_exit 15
                   (booting g mode nolog rel
                            (env2 (ListenOK eph) o1 (Some e) f1)) = [])
      by (destruct e; explore).
    pose proof (always_eq on_exit
      (fun st => (halted st,
                  if quiescent on_exit st
                  then Some (run_returns (trace (world st))) else None))
      (fun st => (@None Halt,
                  if quiescent on_exit st
                  then Some [if error_eqb e ErrServerClosed then None
                             else Some e]
                  else None))
      14 _ Hf ltac:(destruct e; explore) sched) as H.
    cbv beta zeta in *.
    apply pair_inv in H. destruct H as [H1 H2]. split; [assumption|].
    intros Hq. exact (@when_inv _ _ _ _ H2 Hq).
  - intros eph sched.
    assert (Hf : frontier on_exit 13
                   (booting g mode nolog rel
                            (env2 (ListenOK eph) o1 None f1)) = [])
      by explore.
    pose proof (always_eq on_exit
      (fun st => (halted st, run_returns (trace (world st)),
                  if quiescent on_exit st
                  then Some (map lis_id (bound (world st))) else None))
      (fun st => (@None Halt, @nil (option error),
                  if quiescent on_exit st then Some [0%nat] else None))
      12 _ Hf ltac:(explore) sched) as H.
    cbv beta zeta in *.
    apply pair_inv in H. destruct H as [H H3].
    apply pair_inv in H. destruct H as [H1 H2].
    repeat (split; [assumption|]).
    intros Hq. exact (@when_inv _ _ _ _ H3 Hq).
  - intros h e0 addr port o0 sched.
    assert (Hf : frontier on_exit 11
                   (spawn call_Stop
                          (running g h e0 addr port mode nolog rel
                                   (env2 o0 o1 None f1))) = [])
      by explore.
    pose proof (always_eq on_exit
      (fun st => (halted st,
                  if quiescent on_exit st
                  then Some (run_returns (trace (world st)), bound (world st))
                  else None))
      (fun st => (@None Halt,
                  if quiescent on_exit st
                  then Some ([@None error], @nil Listener) else None))
      10 _ Hf ltac:(explore) sched) as H.
    cbv beta zeta in *.
    apply pair_inv in H. destruct H as [H1 H2]. split; [assumption|].
    intros Hq. pose proof (@when_inv _ _ _ _ H2 Hq) as H.
    now apply pair_inv in H.
  - intros e f0 sched.
    assert (Hf : frontier on_exit 11
                   (booting g mode nolog rel (env2 (ListenErr e) o1 f0 f1))
                 = [])
      by explore.
    pose proof (always_eq on_exit
      (fun st => (run_returns (trace (world st)), bound (world st),
                  if quiescent on_exit st then Some (halted st) else None))
      (fun st => (@nil (option error), @nil Listener,
                  if quiescent on_exit st then Some (Some (Exited 1))
                  else None))
      10 _ Hf ltac:(explore) sched) as H.
    cbv beta zeta in *.
    apply pair_inv in H. destruct H as [H H3].
    apply pair_inv in H. destruct H as [H1 H2].
    repeat (split; [assumption|]).
    intros Hq. exact (@when_inv _ _ _ _ H3 Hq).
Qed.

Lemma Run_outcome_witness :
  isEnabled demo = true
  /\ (let st := run on_exit (repeat 0%nat 14)
                    (booting demo "" false false
                             (env2 (ListenOK 40000) (ListenOK 40001)
                                   (Some too_many_files) None)) in
      quiescent on_exit st = true
      /\ run_returns (trace (world st)) = [Some too_many_files])
  /\ (let st := run on_exit (repeat 0%nat 12)
                    (booting demo "" false false
                             (env2 (ListenErr address_in_use)
                                   (ListenOK 40001) None None)) in
      quiescent on_exit st = true
      /\ halted st = Some (Exited 1)).
Proof.
  assert (Hen : isEnabled demo = true) by reflexivity.
  split; [exact Hen|]. split.
  - intros st.
    assert (Hq : quiescent on_exit st = true) by (vm_compute; reflexivity).
    split; [exact Hq|].
    exact (proj2 (proj1 (Run_outcome demo "" false false
                           (ListenOK 40001) None Hen)
                    40000%positive too_many_files (repeat 0%nat 14)) Hq).
  - intros st.
    assert (Hq : quiescent on_exit st = true) by (vm_compute; reflexivity).
    split; [exact Hq|].
    exact (proj2 (proj2 (proj2 (proj2 (proj2
             (Run_outcome demo "" false false (ListenOK 40001) None Hen)))
             address_in_use None (repeat 0%nat 12))) Hq).
Defined.

(** C3 as stated fails: when port 3000 is taken, [Run] of the demo service
    returns nothing under any schedule; the process exits instead. *)
Lemma Run_listen_failure_is_not_returned :
  let st0 := booting demo "" false false
                     (env2 (ListenErr address_in_use) (ListenOK 40001)
                           None None) in
  (forall sched, run_returns (trace (world (run on_exit sched st0))) = [])
  /\ halted (run on_exit (repeat 0%nat 10) st0) = Some (Exited 1).
Proof.
  intros st0. split; [|reflexivity].
  assert (Hf : frontier on_exit 11 st0 = []) by (vm_compute; reflexivity).
  exact (always_eq on_exit
           (fun st => run_returns (trace (world st)))
           (fun _ => @nil (option error))
           10 _ Hf ltac:(vm_compute; reflexivity)).
Qed.

(** *** The bound port *)

(** C4: an enabled listener configured with port 0 whose [net.Listen] is
    granted.  Whenever [Run] comes to rest the port has been stored; and
    from the moment it is stored, the stored value is the port of the live
    listener, the one the system assigned, and every [Port] call made from
    then on returns it (and does return, the mutex being free), a port that
    is not 0. *)
Theorem Port_reports_assigned_port
    (g : ginService) (mode : string) (nolog rel : bool) (eph : positive)
    (o1 : ListenOutcome) (f0 f1 : option error) (sched1 : list nat) :
  isEnabled g = true -> Port (Config_ g) = 0%Z ->
  let st1 := run on_exit sched1
                 (booting g mode nolog rel (env2 (ListenOK eph) o1 f0 f1)) in
  (quiescent on_exit st1 = true ->
   stored_ports (trace (world st1)) = [Zpos eph])
  /\ (forall p, In p (stored_ports (trace (world st1))) ->
        p = Zpos eph
        /\ map lis_port (listened (trace (world st1))) = [Zpos eph]
        /\ Port (Config_ (gs (world st1))) = Zpos eph
        /\ forall sched2,
             let st2 := run on_exit sched2 (spawn call_Port st1) in
             (forall v, In v (port_returns (trace (world st2))) ->
                        v = Zpos eph /\ v <> 0%Z)
             /\ (quiescent on_exit st2 = true -> mu g = false ->
                 port_returns (trace (world st2)) = [Zpos eph])).
Proof.
  intros Hen Hp. destruct g as [[p0 bind nd] en n lg sv r m hs].
  simpl in Hen, Hp. subst en p0.
  set (g := mk_ginService _ _ _ _ _ _ _ _). intros st1.
  pose (X := port_bound (mk_Config 0 bind nd) eph).
  assert (HX : X = Zpos eph) by apply port_bound_ephemeral.
  pose (f2 := fun st2 : State World =>
                (port_returns (trace (world st2)),
                 if quiescent on_exit st2
                 then (if m then true
                       else nonempty (port_returns (trace (world st2))))
                 else true)).
  pose (g2 := fun st2 : State World =>
                (if nonempty (port_returns (trace (world st2)))
                 then [X] else [], true)).
  assert (Hf : frontier on_exit 15
                 (booting g mode nolog rel (env2 (ListenOK eph) o1 f0 f1))
               = [])
    by (destruct f0 as [[|msg]|]; explore).
  pose proof (always_eq on_exit
    (fun s1 =>
       (if quiescent on_exit s1
        then Some (stored_ports (trace (world s1))) else None,
        if nonempty (stored_ports (trace (world s1)))
        then Some (stored_ports (trace (world s1)),
                   map lis_port (listened (trace (world s1))),
                   Port (Config_ (gs (world s1))),
                   frontier on_exit 10 (spawn call_Port s1),
                   map f2 (reach on_exit 9 (spawn call_Port s1)))
        else None))
    (fun s1 =>
       (if quiescent on_exit s1 then Some [X] else None,
        if nonempty (stored_ports (trace (world s1)))
        then Some ([X], [X], X, [],
                   map g2 (reach on_exit 9 (spawn call_Port s1)))
        else None))
    14 _ Hf ltac:(destruct m, f0 as [[|msg]|]; explore) sched1) as H.
  cbv beta in H. fold st1 in H.
  apply pair_inv in H. destruct H as [Hq Hs].
  split.
  - intros Q. rewrite (@when_inv _ _ _ _ Hq Q). now rewrite HX.
  - intros p Hin.
    pose proof (@when_inv _ _ _ _ Hs (In_nonempty _ _ Hin)) as H.
    apply pair_inv in H. destruct H as [H H5].
    apply pair_inv in H. destruct H as [H H4].
    apply pair_inv in H. destruct H as [H H3].
    apply pair_inv in H. destruct H as [H1 H2].
    rewrite H1 in Hin. destruct Hin as [<-|[]].
    rewrite H2, H3, HX. repeat (split; [reflexivity|]).
    intros sched2 st2.
    pose proof (always_eq on_exit f2 g2 9 _ H4 H5 sched2) as H.
    fold st2 in H. unfold f2, g2 in H.
    apply pair_inv in H. destruct H as [Ha Hb].
    split.
    + intros v Hv. rewrite (In_nonempty _ _ Hv) in Ha.
      rewrite Ha in Hv. destruct Hv as [<-|[]]. rewrite HX.
      split; [reflexivity|discriminate].
    + simpl. intros Q ->. rewrite Q in Hb. rewrite Hb in Ha.
      now rewrite Ha, HX.
Qed.

Lemma Port_reports_assigned_port_witness :
  let st1 := run on_exit (repeat 0%nat 12)
                 (booting demo0 "" false false demo_env) in
  let st2 := run on_exit (repeat 1%nat 4) (spawn call_Port st1) in
  isEnabled demo0 = true /\ Port (Config_ demo0) = 0%Z
  /\ In 40000%Z (stored_ports (trace (world st1)))
  /\ Port (Config_ (gs (world st1))) = 40000%Z
  /\ quiescent on_exit st2 = true
  /\ port_returns (trace (world st2)) = [40000%Z].
Proof.
  intros st1 st2.
  assert (Hen : isEnabled demo0 = true) by reflexivity.
  assert (Hp : Port (Config_ demo0) = 0%Z) by reflexivity.
  assert (Hm : mu demo0 = false) by reflexivity.
  assert (Hin : In 40000%Z (stored_ports (trace (world st1))))
    by (vm_compute; left; reflexivity).
  assert (Hq : quiescent on_exit st2 = true) by (vm_compute; reflexivity).
  split; [exact Hen|]. split; [exact Hp|]. split; [exact Hin|].
  destruct (proj2 (Port_reports_assigned_port demo0 "" false false
                     40000 (ListenOK 40001) None None (repeat 0%nat 12)
                     Hen Hp)
              40000%Z Hin) as (_ & _ & H3 & H4).
  split; [exact H3|]. split; [exact Hq|].
  exact (proj2 (H4 (repeat 1%nat 4)) Hq Hm).
Defined.

(** *** Handlers *)



(** X11: The boundary of C6 is the loop itself: a handler appended while [Run]
    is still on its way to the loop is one of the handlers appended before
    the loop executed, and is installed; one appended after it is not. *)
Lemma handler_appended_during_startup
    (g : ginService) (mode : string) (nolog rel : bool) (hdl : HandlerFunc)
    (eph : positive) (o1 : ListenOutcome) (f1 : option error) :
  isEnabled g = true ->
  let st0 := start (process g mode nolog rel
                            (env2 (ListenOK eph) o1 None f1))
                   [call_Run; call_AddHandler hdl] in
  (let st := run on_exit ([0%nat] ++ repeat 1%nat 2 ++ repeat 0%nat 11)
                 st0 in
   nonempty (bound (world st)) = true
   /\ engines (world st)
      = [router_with (name g) (Config_ g) nolog (handlers g ++ [hdl])])
  /\ (let st := run on_exit (repeat 0%nat 7 ++ repeat 1%nat 2
                             ++ repeat 0%nat 5) st0 in
      nonempty (bound (world st)) = true
      /\ engines (world st)
         = [router_with (name g) (Config_ g) nolog (handlers g)]).
Proof.
  intros Hen. destruct g as [c en n lg sv r m hs]. simpl in Hen. subst en.
  split; split; explore.
Qed.

(** *** The mutex *)

(** C7 fails on the code: only the read in [Port] takes the mutex.  While a
    [Port] call holds it, [Run] stores the bound port (here the listener was
    configured with port 0, so the value changes from 0 to the assigned
    port), and [Reload] overwrites the whole configuration: the mutex is
    held before and after each of these writes, by the reader. *)
Theorem port_written_outside_mutex
    (g : ginService) (mode : string) (nolog rel : bool) (eph : positive)
    (o0 o1 : ListenOutcome) (f0 f1 : option error) (h : option nat)
    (e0 : Engine) (addr : string) (port : Z) (c1 : Config) :
  mu g = false ->
  (isEnabled g = true -> Port (Config_ g) = 0%Z ->
   exists sched,
     let st := run on_exit sched
                   (start (process g mode nolog rel
                                   (env2 (ListenOK eph) o1 f0 f1))
                          [call_Run; call_Port]) in
     let st' := run on_exit [0%nat] st in
     mu (gs (world st)) = true
     /\ Port (Config_ (gs (world st))) = 0%Z
     /\ mu (gs (world st')) = true
     /\ Port (Config_ (gs (world st'))) = Zpos eph)
  /\ (exists sched,
         let st := run on_exit sched
                       (spawn (call_Reload c1)
                          (spawn call_Port
                             (running g h e0 addr port mode nolog rel
                                      (env2 o0 o1 f0 f1)))) in
         let st' := run on_exit [2%nat] st in
         mu (gs (world st)) = true
         /\ Config_ (gs (world st)) = Config_ g
         /\ mu (gs (world st')) = true
         /\ Config_ (gs (world st')) = c1).
Proof.
  destruct g as [[p0 bind nd] en n lg sv r m hs].
  intros Hm. simpl in Hm. subst m.
  split.
  - intros Hen Hp. simpl in Hen, Hp. subst en p0.
    pose proof (port_bound_ephemeral bind nd eph) as HX.
    exists (1%nat :: repeat 0%nat 9). cbv zeta.
    repeat split; try explore.
    rewrite <- HX. explore.
  - exists [1%nat]. cbv zeta. repeat split; explore.
Qed.

Lemma port_written_outside_mutex_witness :
  mu demo0 = false /\ isEnabled demo0 = true /\ Port (Config_ demo0) = 0%Z
  /\ exists sched,
       let st := run on_exit sched
                     (start (process demo0 "" false false demo_env)
                            [call_Run; call_Port]) in
       let st' := run on_exit [0%nat] st in
       mu (gs (world st)) = true
       /\ Port (Config_ (gs (world st))) = 0%Z
       /\ mu (gs (world st')) = true
       /\ Port (Config_ (gs (world st'))) = 40000%Z.
Proof.
  assert (Hm : mu demo0 = false) by reflexivity.
  assert (Hen : isEnabled demo0 = true) by reflexivity.
  assert (Hp : Port (Config_ demo0) = 0%Z) by reflexivity.
  split; [exact Hm|]. split; [exact Hen|]. split; [exact Hp|].
  exact (proj1 (port_written_outside_mutex demo0 "" false false 40000
                  (ListenOK 40000) (ListenOK 40001) None None None gin_New
                  ":0" 40000 demo_config Hm) Hen Hp).
Defined.

(** *** Reload *)



End GinFacts.


(* ================================================================== *)
(** ** More on the plugins *)
(* ================================================================== *)

Module SimpleRunFacts.
Import Simple.

(** X2: [Run] of the simple plugin is its configuration check: it fails, with
    the one error the plugin has, exactly when the value is empty.  The
    flag default passes the check; a plugin whose flags were never
    registered does not. *)
Theorem simple_Run_requires_a_value (s : simplePlugin) :
  (Run s = None <-> value s <> "")
  /\ (Run s = Some (ErrorString "simple plugin value is empty")
      <-> value s = "")
  /\ Run s = Configure s
  /\ (forall n, Run (InitFlags (NewSimplePlugin n)) = None
                /\ GetValue (InitFlags (NewSimplePlugin n)) = "default value"
                /\ Name (InitFlags (NewSimplePlugin n)) = n
                /\ Run (NewSimplePlugin n)
                   = Some (ErrorString "simple plugin value is empty")).
Proof.
  unfold Run, Configure.
  destruct (String.eqb_spec (value s) "") as [E|E].
  - repeat split; try discriminate; try congruence; auto.
  - repeat split; try discriminate; try congruence; auto.
Qed.
End SimpleRunFacts.

Module OtelRunFacts.

Import Otel OtelRun.


Lemma nth_length_app (A : Type) (l : list A) (x d : A) :
  nth (List.length l) (l ++ [x]) d = x.
Proof. induction l; simpl; auto. Qed.

Lemma upd_length_app (A : Type) (l : list A) (x y : A) :
  upd (List.length l) y (l ++ [x]) = l ++ [y].
Proof. induction l; simpl; [reflexivity|]. now rewrite IHl. Qed.

Lemma stop_provider_app (ps l : list Provider) (j : nat) :
  stop_provider (List.length ps + j) (ps ++ l) = ps ++ stop_provider j l.
Proof. induction ps; simpl; [reflexivity|]. now rewrite IHps. Qed.

Lemma run_cleanups_app (e : Env) (ps : list Provider) (js : list nat) :
  forall (l : list Provider) (err : option error),
    run_cleanups e (map (Nat.add (List.length ps)) js) (ps ++ l) err
    = (ps ++ fst (run_cleanups e js l err), snd (run_cleanups e js l err)).
Proof.
  induction js as [|j js IH]; intros l err; simpl; [reflexivity|].
  rewrite stop_provider_app, IH.
  rewrite nth_error_app2 by lia.
  replace (List.length ps + j - List.length ps)%nat with j by lia.
  reflexivity.
Qed.

Lemma call_shutdown_lift (ps : list Provider) (cls : list (list nat))
                         (p : OtelPlugin) (news : list Provider)
                         (fns : list nat) (e : Env) :
  call_shutdown (List.length cls) (lift ps cls (mk_World p news [fns] e))
  = (lift ps cls (fst (call_shutdown 0 (mk_World p news [fns] e))),
     snd (call_shutdown 0 (mk_World p news [fns] e))).
Proof.
  unfold call_shutdown, lift. simpl.
  rewrite nth_length_app, upd_length_app, run_cleanups_app. reflexivity.
Qed.

Lemma setup_provider_lift (ps : list Provider) (cls : list (list nat))
                          (b : bool) (k : ProviderKind) (p : OtelPlugin)
                          (news : list Provider) (fns : list nat) (e : Env) :
  setup_provider b k (List.length cls) (lift ps cls (mk_World p news [fns] e))
  = match setup_provider b k 0 (mk_World p news [fns] e) with
    | inl w1 => inl (lift ps cls w1)
    | inr (w1, err) => inr (lift ps cls w1, err)
    end.
Proof.
  unfold setup_provider. destruct b; [|reflexivity].
  unfold newProvider. cbn [env op lift].
  destruct (new_exporter_err e k) as [err|].
  - rewrite call_shutdown_lift. reflexivity.
  - unfold lift. simpl. rewrite nth_length_app, upd_length_app.
    rewrite map_app, length_app, <- app_assoc. reflexivity.
Qed.

Lemma setup_provider_shape (b : bool) (k : ProviderKind) (p : OtelPlugin)
                           (news : list Provider) (fns : list nat) (e : Env)
                           (w1 : World) :
  setup_provider b k 0 (mk_World p news [fns] e) = inl w1 ->
  exists news' fns', w1 = mk_World p news' [fns'] e.
Proof.
  unfold setup_provider, newProvider. destruct b; simpl.
  - destruct (new_exporter_err e k); [discriminate|].
    intros H. injection H as <-. eauto.
  - intros H. injection H as <-. eauto.
Qed.

(** [SetupOTelSDK] works on its own closure cell and on the providers it
    starts itself: what the process already holds is left as it is. *)
Lemma SetupOTelSDK_frame (p : OtelPlugin) (ps : list Provider)
                         (cls : list (list nat)) (e : Env) :
  SetupOTelSDK (mk_World p ps cls e)
  = (lift ps cls (fst (SetupOTelSDK (mk_World p [] [] e))),
     (List.length cls, snd (snd (SetupOTelSDK (mk_World p [] [] e))))).
Proof.
  assert (H0 : mk_World p ps (cls ++ [[]]) e
               = lift ps cls (mk_World p [] [[]] e))
    by (unfold lift; simpl; now rewrite app_nil_r).
  unfold SetupOTelSDK. cbn [closures op providers env List.length app].
  rewrite H0. cbn [op lift]. fold (lift ps cls (mk_World p [] [[]] e)).
  rewrite setup_provider_lift.
  destruct (setup_provider (isEnabledTrace p) Tracer 0 _)
    as [w1|[w1 err]] eqn:E1; [|reflexivity].
  destruct (setup_provider_shape _ _ _ _ _ _ E1) as (n1 & f1 & ->).
  cbn [op lift]. fold (lift ps cls (mk_World p n1 [f1] e)).
  rewrite setup_provider_lift.
  destruct (setup_provider (isEnabledMetric p) Meter 0 _)
    as [w2|[w2 err]] eqn:E2; [|reflexivity].
  destruct (setup_provider_shape _ _ _ _ _ _ E2) as (n2 & f2 & ->).
  cbn [op lift]. fold (lift ps cls (mk_World p n2 [f2] e)).
  rewrite setup_provider_lift.
  destruct (setup_provider (isEnabledLog p) LoggerP 0 _)
    as [w3|[w3 err]] eqn:E3; reflexivity.
Qed.

Lemma errors_Join_left (a : error) (b : option error) :
  exists err, errors_Join (Some a) b = Some err.
Proof. destruct a, b as [[|]|]; simpl; eauto. Qed.

(** On a process that holds nothing yet. *)
Lemma SetupOTelSDK_fresh (p : OtelPlugin) (e : Env) :
  let r := SetupOTelSDK (mk_World p [] [] e) in
  let x := if isOtlpProtocolEnabled p then newOtlpExporter p else Stdout in
  op (fst r) = p /\ env (fst r) = e /\ fst (snd r) = 0%nat
  /\ ((snd (snd r) = None
       /\ providers (fst r) = map (started x) (requested p)
       /\ closures (fst r) = [seq 0 (List.length (requested p))])
      \/ (exists ks k rest e1,
             requested p = ks ++ k :: rest
             /\ (forall k', In k' ks -> new_exporter_err e k' = None)
             /\ new_exporter_err e k = Some e1
             /\ snd (snd r) = errors_Join (Some e1) (cleanup_errors e ks)
             /\ providers (fst r) = map (stopped x) ks
             /\ closures (fst r) = [[]])).
Proof.
  destruct p as [nm pf en sn sv ep pr tr me lg sh].
  destruct e as [ne se].
  unfold SetupOTelSDK, setup_provider, newProvider, requested,
    call_shutdown, cleanup_errors.
  cbn [op env isEnabledTrace isEnabledMetric isEnabledLog closures providers
       List.length app new_exporter_err provider_shutdown_err].
  destruct tr, me, lg;
    destruct (ne Tracer) as [e1|] eqn:H1, (ne Meter) as [e2|] eqn:H2,
             (ne LoggerP) as [e3|] eqn:H3;
    repeat (progress (cbn -[errors_Join isOtlpProtocolEnabled
                             newOtlpExporter];
                      rewrite ?H1, ?H2, ?H3));
    (split; [reflexivity|]); (split; [reflexivity|]);
    (split; [reflexivity|]);
    first
      [ left; repeat split; fail
      | right; exists []; do 3 eexists;
        split; [reflexivity|];
        split; [intros k' []|];
        split; [eassumption|]; repeat split; fail
      | right; eexists [_]; do 3 eexists;
        split; [reflexivity|];
        split; [intros k' [<-|[]]; assumption|];
        split; [eassumption|]; repeat split; fail
      | right; eexists [_; _]; do 3 eexists;
        split; [reflexivity|];
        split; [intros k' [<-|[<-|[]]]; assumption|];
        split; [eassumption|]; repeat split; fail ].
Qed.

Lemma Configure_None (p : OtelPlugin) :
  Configure p = None <->
  serviceName p <> "" /\ serviceVersion p <> ""
  /\ exporterOtlpEndpoint p <> "".
Proof.
  unfold Configure.
  destruct (String.eqb_spec (serviceName p) "");
    destruct (String.eqb_spec (serviceVersion p) "");
    destruct (String.eqb_spec (exporterOtlpEndpoint p) "");
    split; try discriminate; try tauto.
Qed.

Lemma Configure_otlp (p : OtelPlugin) :
  Configure p = None -> isOtlpProtocolEnabled p = true.
Proof.
  intros H. apply Configure_None in H. destruct H as (_ & _ & H).
  unfold isOtlpProtocolEnabled, defaultOtelEndpoint.
  now destruct (String.eqb_spec (exporterOtlpEndpoint p) "").
Qed.

(** [Run] past its two guards. *)
Lemma Run_configured (w : World) :
  isEnabled (op w) = true -> Configure (op w) = None ->
  Run w
  = (set_op (set_shutdown (Some (List.length (closures w))))
            (lift (providers w) (closures w)
                  (fst (SetupOTelSDK (mk_World (op w) [] [] (env w))))),
     snd (snd (SetupOTelSDK (mk_World (op w) [] [] (env w))))).
Proof.
  intros Hen Hc. unfold Run. rewrite Hen, Hc. simpl.
  destruct w as [p ps cls e]. rewrite SetupOTelSDK_frame. reflexivity.
Qed.

Lemma Run_skipped (w : World) :
  isEnabled (op w) = false \/ Configure (op w) <> None -> fst (Run w) = w.
Proof.
  unfold Run. destruct (isEnabled (op w)); simpl.
  - intros [H|H]; [discriminate|].
    destruct (Configure (op w)); [reflexivity|congruence].
  - reflexivity.
Qed.

(** What [Run] leaves behind: the providers that were there, followed by
    the ones it started, all with the OTLP exporter of the plugin; all of
    them running when [Run] returns nil, none of them when it returns an
    error. *)
Lemma Run_shape (w : World) :
  isEnabled (op w) = true -> Configure (op w) = None ->
  let x := newOtlpExporter (op w) in
  let cl := List.length (closures w) in
  op (fst (Run w)) = set_shutdown (Some cl) (op w)
  /\ env (fst (Run w)) = env w
  /\ ((snd (Run w) = None
       /\ providers (fst (Run w))
          = providers w ++ map (started x) (requested (op w))
       /\ closures (fst (Run w))
          = closures w
            ++ [map (Nat.add (List.length (providers w)))
                    (seq 0 (List.length (requested (op w))))])
      \/ (exists ks k rest e1,
             requested (op w) = ks ++ k :: rest
             /\ (forall k', In k' ks -> new_exporter_err (env w) k' = None)
             /\ new_exporter_err (env w) k = Some e1
             /\ snd (Run w)
                = errors_Join (Some e1) (cleanup_errors (env w) ks)
             /\ providers (fst (Run w))
                = providers w ++ map (stopped x) ks
             /\ closures (fst (Run w)) = closures w ++ [[]])).
Proof.
  intros Hen Hc. cbv zeta.
  rewrite (Run_configured w Hen Hc).
  pose proof (SetupOTelSDK_fresh (op w) (env w)) as HF. cbv zeta in HF.
  rewrite (Configure_otlp _ Hc) in HF.
  destruct (SetupOTelSDK (mk_World (op w) [] [] (env w)))
    as [[p0 n0 c0 e0] [k0 err0]].
  simpl in HF. destruct HF as (-> & -> & -> & HF).
  cbn [fst snd lift set_op op providers closures env].
  split; [reflexivity|]. split; [reflexivity|].
  destruct HF as [(-> & -> & ->)|HF].
  - left. repeat split.
  - destruct HF as (ks & k & rest & e1 & Hr & Hk & He & -> & -> & ->).
    right. exists ks, k, rest, e1. repeat split; assumption.
Qed.

Lemma stop_provider_here (ps l : list Provider) :
  stop_provider (List.length ps) (ps ++ l) = ps ++ stop_provider 0 l.
Proof.
  pose proof (stop_provider_app ps l 0) as H.
  now rewrite Nat.add_0_r in H.
Qed.

Lemma run_cleanups_all (e : Env) (x : Exporter) (ks : list ProviderKind) :
  forall (pre : list Provider) (err : option error),
    fst (run_cleanups e (seq (List.length pre) (List.length ks))
                      (pre ++ map (started x) ks) err)
    = pre ++ map (stopped x) ks.
Proof.
  induction ks as [|k ks IH]; intros pre err; [reflexivity|].
  cbn [List.length seq map run_cleanups].
  rewrite stop_provider_here. cbn [stop_provider started kind exporter].
  change (pre ++ mk_Provider k x false :: map (started x) ks)
    with (pre ++ [stopped x k] ++ map (started x) ks).
  rewrite app_assoc.
  replace (S (List.length pre)) with (List.length (pre ++ [stopped x k]))
    by (rewrite length_app; simpl; lia).
  rewrite IH, <- app_assoc. reflexivity.
Qed.

Lemma run_cleanups_errors (e : Env) (x : Exporter) (ks : list ProviderKind) :
  forall (pre : list Provider) (err : option error),
    snd (run_cleanups e (seq (List.length pre) (List.length ks))
                      (pre ++ map (started x) ks) err)
    = fold_left (fun acc k => errors_Join acc (provider_shutdown_err e k))
                ks err.
Proof.
  induction ks as [|k ks IH]; intros pre err; [reflexivity|].
  cbn [List.length seq map run_cleanups fold_left].
  rewrite nth_error_app2, Nat.sub_diag by lia.
  cbn [nth_error started kind].
  rewrite stop_provider_here. cbn [stop_provider started kind exporter].
  change (pre ++ mk_Provider k x false :: map (started x) ks)
    with (pre ++ [stopped x k] ++ map (started x) ks).
  rewrite app_assoc.
  replace (S (List.length pre)) with (List.length (pre ++ [stopped x k]))
    by (rewrite length_app; simpl; lia).
  now rewrite IH.
Qed.

Lemma call_shutdown_registered (p : OtelPlugin) (ps : list Provider)
                               (ks : list ProviderKind) (x : Exporter)
                               (cls : list (list nat)) (e : Env) :
  providers
    (fst (call_shutdown (List.length cls)
            (mk_World p (ps ++ map (started x) ks)
                      (cls ++ [map (Nat.add (List.length ps))
                                   (seq 0 (List.length ks))]) e)))
  = ps ++ map (stopped x) ks
  /\ snd (call_shutdown (List.length cls)
            (mk_World p (ps ++ map (started x) ks)
                      (cls ++ [map (Nat.add (List.length ps))
                                   (seq 0 (List.length ks))]) e))
     = cleanup_errors e ks.
Proof.
  unfold call_shutdown. cbn [fst snd providers closures env].
  rewrite nth_length_app, run_cleanups_app. cbn [fst snd].
  pose proof (run_cleanups_all e x ks [] None) as H.
  pose proof (run_cleanups_errors e x ks [] None) as H'.
  cbn [List.length app] in H, H'. now rewrite H, H'.
Qed.

Lemma call_shutdown_empty (p : OtelPlugin) (ps : list Provider)
                          (cls : list (list nat)) (e : Env) :
  call_shutdown (List.length cls) (mk_World p ps (cls ++ [[]]) e)
  = (mk_World p ps (cls ++ [[]]) e, None).
Proof.
  unfold call_shutdown. cbn [fst snd providers closures env op].
  now rewrite nth_length_app, upd_length_app.
Qed.

(** What the goroutine of [Stop] does to a plugin that holds a closure:
    under every schedule the process keeps going, and once everything has
    come to rest the channel has yielded [true] and the closure has run. *)
Lemma Stop_runs_closure (w : World) (cl : nat) (sched : list nat) :
  shutdown (op w) = Some cl ->
  let st := run on_exit sched (scenario w) in
  halted st = None
  /\ (quiescent on_exit st = true ->
      yielded 0 st = [true] /\ world st = fst (call_shutdown cl w)).
Proof.
  intros Hs. destruct w as [p ps cls e].
  destruct p as [nm pf en sn sv ep pr tr me lg sh].
  simpl in Hs. subst sh.
  set (w := mk_World _ _ _ _).
  assert (Hf : frontier on_exit 6 (scenario w) = [])
    by (cbv -[call_shutdown]; reflexivity).
  pose proof (always_eq on_exit
    (fun st => (halted st,
                if quiescent on_exit st
                then Some (yielded 0 st, world st) else None))
    (fun st => (@None Halt,
                if quiescent on_exit st
                then Some ([true], fst (call_shutdown cl w)) else None))
    5 _ Hf ltac:(cbv -[call_shutdown]; reflexivity) sched) as H.
  cbv beta zeta in *.
  apply pair_inv in H. destruct H as [H1 H2].
  split; [assumption|].
  intros Q. pose proof (@when_inv _ _ _ _ H2 Q) as H.
  now apply pair_inv in H.
Qed.


(** X4: When [Run] of an enabled, configured plugin returns nil, it has started
    exactly the providers the feature flags ask for, in the order tracer,
    meter, logger, after the providers the process already had; each one
    exports over OTLP with the configured protocol.  The plugin then holds
    a shutdown closure, and calling it stops exactly these providers and
    empties its list of cleanups. *)
Theorem otel_Run_starts_requested_providers (w : World) :
  isEnabled (op w) = true -> Configure (op w) = None ->
  snd (Run w) = None ->
  let w' := fst (Run w) in
  let cl := List.length (closures w) in
  let x := newOtlpExporter (op w) in
  providers w' = providers w ++ map (started x) (requested (op w))
  /\ shutdown (op w') = Some cl
  /\ providers (fst (call_shutdown cl w'))
     = providers w ++ map (stopped x) (requested (op w))
  /\ snd (call_shutdown cl w') = cleanup_errors (env w) (requested (op w))
  /\ nth cl (closures (fst (call_shutdown cl w'))) [] = [].
Proof.
  intros Hen Hc Hr. cbv zeta.
  destruct (Run_shape w Hen Hc) as (Hop & Henv & [H|H]).
  2:{ destruct H as (ks & k & rest & e1 & _ & _ & _ & He & _).
      rewrite He in Hr.
      destruct (errors_Join_left e1 (cleanup_errors (env w) ks)).
      congruence. }
  destruct H as (_ & Hp & Hcl).
  destruct (fst (Run w)) as [p1 ps1 cls1 e1].
  cbn [op env providers closures] in *. subst.
  split; [reflexivity|]. split; [reflexivity|].
  split; [apply call_shutdown_registered|].
  split; [apply call_shutdown_registered|].
  - unfold call_shutdown. cbn [fst closures].
    now rewrite upd_length_app, nth_length_app.
Qed.

Lemma otel_Run_starts_requested_providers_witness :
  let w := mk_World example_flags [] [] example_env in
  isEnabled (op w) = true /\ Configure (op w) = None /\ snd (Run w) = None
  /\ map kind (providers (fst (Run w))) = [Tracer; Meter; LoggerP]
  /\ map running (providers (fst (call_shutdown 0 (fst (Run w)))))
     = [false; false; false].
Proof.
  intros w.
  assert (H1 : isEnabled (op w) = true) by reflexivity.
  assert (H2 : Configure (op w) = None) by reflexivity.
  assert (H3 : snd (Run w) = None) by reflexivity.
  destruct (otel_Run_starts_requested_providers w H1 H2 H3)
    as (Ha & _ & Hc & _).
  repeat (split; [assumption|]). split.
  - transitivity (map kind (providers w
                            ++ map (started (newOtlpExporter (op w)))
                                   (requested (op w))));
      [exact (f_equal (map kind) Ha) | reflexivity].
  - transitivity (map running (providers w
                               ++ map (stopped (newOtlpExporter (op w)))
                                      (requested (op w))));
      [exact (f_equal (map running) Hc) | reflexivity].
Defined.

(** X5: When an exporter constructor fails, [Run] of an enabled, configured
    plugin returns that error joined with the errors of the cleanups it then
    runs: the providers requested before the failing one were started and
    are shut down again, the ones after it are never started.  The plugin
    still gets its shutdown closure, and calling that closure changes
    nothing and returns nil. *)
Theorem otel_Run_failure_cleans_up (w : World) (err : error) :
  isEnabled (op w) = true -> Configure (op w) = None ->
  snd (Run w) = Some err ->
  let w' := fst (Run w) in
  let cl := List.length (closures w) in
  (exists ks k rest e1,
      requested (op w) = ks ++ k :: rest
      /\ (forall k', In k' ks -> new_exporter_err (env w) k' = None)
      /\ new_exporter_err (env w) k = Some e1
      /\ Some err = errors_Join (Some e1) (cleanup_errors (env w) ks)
      /\ providers w'
         = providers w ++ map (stopped (newOtlpExporter (op w))) ks)
  /\ shutdown (op w') = Some cl
  /\ call_shutdown cl w' = (w', None).
Proof.
  intros Hen Hc Hr. cbv zeta.
  destruct (Run_shape w Hen Hc) as (Hop & Henv & [H|H]).
  { destruct H as (H & _). congruence. }
  destruct H as (ks & k & rest & e1 & Hreq & Hks & Hk & He & Hp & Hcl).
  split.
  - exists ks, k, rest, e1. rewrite <- Hr, He. repeat split; assumption.
  - destruct (fst (Run w)) as [p1 ps1 cls1 e1'].
    cbn [op env providers closures] in *. subst p1 cls1.
    split; [reflexivity|]. apply call_shutdown_empty.
Qed.

(** The metric exporter cannot be built: the tracer provider that was
    already started is shut down again. *)
Lemma otel_Run_failure_cleans_up_witness :
  let boom := ErrorString "otlpmetricgrpc: invalid endpoint" in
  let e := mk_Env (fun k => match k with Meter => Some boom | _ => None end)
                  (fun _ => None) in
  let w := mk_World example_flags [] [] e in
  isEnabled (op w) = true /\ Configure (op w) = None
  /\ snd (Run w) = Some boom
  /\ shutdown (op (fst (Run w))) = Some 0%nat
  /\ call_shutdown 0 (fst (Run w)) = (fst (Run w), None).
Proof.
  intros boom e w.
  assert (H1 : isEnabled (op w) = true) by reflexivity.
  assert (H2 : Configure (op w) = None) by reflexivity.
  assert (H3 : snd (Run w) = Some boom) by reflexivity.
  destruct (otel_Run_failure_cleans_up w H1 H2 H3) as (_ & Hb & Hc).
  repeat (split; [assumption|]). exact Hc.
Defined.

(** X6: No provider that [Run] starts exports to standard output: [Run] only
    gets as far as [SetupOTelSDK] when [Configure] has found an OTLP
    endpoint, so every provider exports over OTLP, by HTTP exactly when the
    protocol flag is "http" and by gRPC otherwise. *)
Theorem otel_Run_never_exports_to_stdout (w : World) (q : Provider) :
  In q (skipn (List.length (providers w)) (providers (fst (Run w)))) ->
  exporter q <> Stdout
  /\ (exporter q = OtlpHTTP <-> exporterOtlpProtocol (op w) = "http")
  /\ (exporter q = OtlpGRPC <-> exporterOtlpProtocol (op w) <> "http").
Proof.
  intros Hin.
  assert (Hx : exporter q = newOtlpExporter (op w)).
  { destruct (isEnabled (op w)) eqn:Hen.
    - destruct (Configure (op w)) as [cerr|] eqn:Hc.
      + rewrite Run_skipped in Hin by (right; congruence).
        rewrite skipn_all in Hin. destruct Hin.
      + destruct (Run_shape w Hen Hc) as (_ & _ & [H|H]).
        * destruct H as (_ & Hp & _). rewrite Hp, skipn_app in Hin.
          rewrite skipn_all, Nat.sub_diag in Hin. simpl in Hin.
          apply in_map_iff in Hin. now destruct Hin as (k & <- & _).
        * destruct H as (ks & k & rest & e1 & _ & _ & _ & _ & Hp & _).
          rewrite Hp, skipn_app in Hin.
          rewrite skipn_all, Nat.sub_diag in Hin. simpl in Hin.
          apply in_map_iff in Hin. now destruct Hin as (k' & <- & _).
    - rewrite Run_skipped in Hin by now left.
      rewrite skipn_all in Hin. destruct Hin. }
  rewrite Hx. unfold newOtlpExporter, otelProtocolHTTP.
  destruct (String.eqb_spec (exporterOtlpProtocol (op w)) "http") as [E|E].
  - split; [discriminate|]. split; split; auto; try discriminate.
    intros H. now elim H.
  - split; [discriminate|]. split; split; auto; try discriminate.
    intros H. now elim E.
Qed.

Lemma otel_Run_never_exports_to_stdout_witness :
  let w := mk_World example_flags [] [] example_env in
  In (mk_Provider Meter OtlpGRPC true)
     (skipn (List.length (providers w)) (providers (fst (Run w))))
  /\ exporter (mk_Provider Meter OtlpGRPC true) <> Stdout.
Proof.
  intros w.
  assert (Hin : In (mk_Provider Meter OtlpGRPC true)
                   (skipn (List.length (providers w))
                          (providers (fst (Run w)))))
    by (right; left; reflexivity).
  split; [exact Hin|].
  exact (proj1 (otel_Run_never_exports_to_stdout w _ Hin)).
Defined.

Lemma nth_upd_nil (A : Type) (cls : list (list A)) :
  forall cl, nth cl (upd cl [] cls) [] = [].
Proof.
  induction cls as [|c cls IH]; intros [|cl]; simpl; auto.
Qed.

Lemma upd_upd (A : Type) (x : A) (l : list A) :
  forall i, upd i x (upd i x l) = upd i x l.
Proof.
  induction l as [|a l IH]; intros [|i]; simpl; auto.
  now rewrite IH.
Qed.

Lemma nth_error_stop_provider (ps : list Provider) :
  forall i j,
    nth_error (stop_provider j ps) i
    = if Nat.eqb i j
      then option_map (fun q => mk_Provider (kind q) (exporter q) false)
                      (nth_error ps i)
      else nth_error ps i.
Proof.
  induction ps as [|p ps IH]; intros [|i] [|j]; simpl; auto.
  now destruct (Nat.eqb i j).
Qed.

Lemma nth_error_run_cleanups (e : Env) (fns : list nat) :
  forall (ps : list Provider) (err : option error) (i : nat),
    nth_error (fst (run_cleanups e fns ps err)) i
    = if existsb (Nat.eqb i) fns
      then option_map (fun q => mk_Provider (kind q) (exporter q) false)
                      (nth_error ps i)
      else nth_error ps i.
Proof.
  induction fns as [|j fns IH]; intros ps err i; simpl; [reflexivity|].
  rewrite IH, nth_error_stop_provider.
  destruct (Nat.eqb i j), (existsb (Nat.eqb i) fns); simpl; auto.
  now destruct (nth_error ps i).
Qed.

(** X7: The shutdown closure runs each registered cleanup once: a call stops
    exactly the providers registered in its cell and leaves every other
    provider as it is, and a second call changes nothing and returns nil,
    whatever the first one returned. *)
Theorem otel_shutdown_closure_runs_once (w : World) (cl : nat) :
  (forall i,
      nth_error (providers (fst (call_shutdown cl w))) i
      = if existsb (Nat.eqb i) (nth cl (closures w) [])
        then option_map (fun q => mk_Provider (kind q) (exporter q) false)
                        (nth_error (providers w) i)
        else nth_error (providers w) i)
  /\ call_shutdown cl (fst (call_shutdown cl w))
     = (fst (call_shutdown cl w), None).
Proof.
  split.
  - intros i. unfold call_shutdown. cbn [fst providers].
    apply nth_error_run_cleanups.
  - unfold call_shutdown. cbn [fst snd providers closures env op].
    rewrite nth_upd_nil, upd_upd. reflexivity.
Qed.

(** X8: [Run] followed by [Stop]: whether or not [Run] returned an error, under
    every schedule the process keeps going, and once everything has come to
    rest the channel has yielded [true] and every provider that [Run]
    started is shut down; the providers that were there before are as they
    were. *)
Theorem otel_Run_then_Stop_leaves_nothing_running
    (w : World) (sched : list nat) :
  isEnabled (op w) = true -> Configure (op w) = None ->
  let st := run on_exit sched (scenario (fst (Run w))) in
  halted st = None
  /\ (quiescent on_exit st = true ->
      yielded 0 st = [true]
      /\ exists ks,
           providers (world st)
           = providers w ++ map (stopped (newOtlpExporter (op w))) ks
           /\ (snd (Run w) = None -> ks = requested (op w))).
Proof.
  intros Hen Hc.
  destruct (Run_shape w Hen Hc) as (Hop & Henv & H).
  assert (Hs : shutdown (op (fst (Run w)))
               = Some (List.length (closures w)))
    by (rewrite Hop; reflexivity).
  intros st.
  destruct (Stop_runs_closure (fst (Run w)) sched Hs) as [H1 H2].
  split; [exact H1|]. intros Q. destruct (H2 Q) as [Hy Hw].
  split; [exact Hy|]. fold st in Hw. rewrite Hw. clear H1 H2 Hw Hy Q st.
  destruct (fst (Run w)) as [p1 ps1 cls1 e1].
  cbn [op env providers closures] in *.
  destruct H as [(Hr & Hp & Hcl)|H].
  - exists (requested (op w)). subst ps1 cls1.
    split; [apply call_shutdown_registered | reflexivity].
  - destruct H as (ks & k & rest & e0 & _ & _ & _ & He & Hp & Hcl).
    exists ks. subst ps1 cls1. rewrite call_shutdown_empty.
    split; [reflexivity|]. intros Hr. rewrite Hr in He.
    destruct (errors_Join_left e0 (cleanup_errors (env w) ks)). congruence.
Qed.

Lemma otel_Run_then_Stop_leaves_nothing_running_witness :
  let w := mk_World example_flags [] [] example_env in
  let st := run on_exit (repeat 0%nat 3 ++ repeat 1%nat 2)
                (scenario (fst (Run w))) in
  isEnabled (op w) = true /\ Configure (op w) = None
  /\ quiescent on_exit st = true
  /\ halted st = None
  /\ yielded 0 st = [true].
Proof.
  intros w st.
  assert (H1 : isEnabled (op w) = true) by reflexivity.
  assert (H2 : Configure (op w) = None) by reflexivity.
  assert (Hq : quiescent on_exit st = true) by (vm_compute; reflexivity).
  destruct (otel_Run_then_Stop_leaves_nothing_running w
              (repeat 0%nat 3 ++ repeat 1%nat 2) H1 H2) as [Ha Hb].
  repeat (split; [assumption|]). exact (proj1 (Hb Hq)).
Defined.

(** X9: [Stop] on a plugin whose [Run] did nothing (it is disabled, or
    [Configure] rejected it) and that holds no closure from an earlier run:
    [Run] leaves the shutdown func nil, so the goroutine of [Stop], having
    sent the acknowledgment, calls a nil func.  Under every schedule the
    plugin is untouched, and once everything has come to rest the channel
    has yielded [true] and the process has panicked. *)
Theorem otel_Stop_after_skipped_Run_panics (w : World) (sched : list nat) :
  shutdown (op w) = None ->
  isEnabled (op w) = false \/ Configure (op w) <> None ->
  let st := run on_exit sched (scenario (fst (Run w))) in
  world st = w
  /\ (halted st = None
      \/ halted st
         = Some (Panicked "invalid memory address or nil pointer dereference")
         /\ yielded 0 st = [true])
  /\ (quiescent on_exit st = true ->
      halted st
      = Some (Panicked "invalid memory address or nil pointer dereference")).
Proof.
  intros Hs Hskip. rewrite (Run_skipped w Hskip).
  destruct w as [p ps cls e].
  destruct p as [nm pf en sn sv ep pr tr me lg sh].
  simpl in Hs. subst sh. clear Hskip.
  set (w := mk_World _ _ _ _). intros st.
  assert (Hf : frontier on_exit 6 (scenario w) = [])
    by (cbv -[call_shutdown]; reflexivity).
  pose proof (always_eq on_exit
    (fun st => (world st,
                match halted st with
                | None => true
                | Some (Panicked m) =>
                    String.eqb m
                      "invalid memory address or nil pointer dereference"
                    && match yielded 0 st with [true] => true | _ => false end
                | Some (Exited _) => false
                end,
                if quiescent on_exit st then halted st
                else Some (Panicked
                       "invalid memory address or nil pointer dereference")))
    (fun st => (w, true,
                Some (Panicked
                        "invalid memory address or nil pointer dereference")))
    5 _ Hf ltac:(cbv -[call_shutdown]; reflexivity) sched) as H.
  cbv beta in H. fold st in H.
  apply pair_inv in H. destruct H as [H H3].
  apply pair_inv in H. destruct H as [H1 H2].
  split; [exact H1|]. split.
  - destruct (halted st) as [[m|c]|]; [|discriminate|now left].
    right. apply andb_prop in H2. destruct H2 as [Hm Hy].
    apply String.eqb_eq in Hm. subst m. split; [reflexivity|].
    destruct (yielded 0 st) as [|[] [|]]; try discriminate. reflexivity.
  - intros Q. now rewrite Q in H3.
Qed.

Lemma otel_Stop_after_skipped_Run_panics_witness :
  let w := mk_World (InitFlags (NewOtelPlugin "otel")) [] [] example_env in
  let st := run on_exit [0%nat; 0%nat; 0%nat; 1%nat; 1%nat]
                (scenario (fst (Run w))) in
  shutdown (op w) = None
  /\ Configure (op w) <> None
  /\ quiescent on_exit st = true
  /\ halted st
     = Some (Panicked "invalid memory address or nil pointer dereference").
Proof.
  intros w st.
  assert (H1 : shutdown (op w) = None) by reflexivity.
  assert (H2 : Configure (op w) <> None) by (simpl; discriminate).
  assert (Hq : quiescent on_exit st = true) by (vm_compute; reflexivity).
  repeat (split; [assumption|]).
  exact (proj2 (proj2 (otel_Stop_after_skipped_Run_panics w
                         [0%nat; 0%nat; 0%nat; 1%nat; 1%nat] H1
                         (or_intror H2))) Hq).
Defined.
End OtelRunFacts.

Module OtelSDKFacts.

Import Otel.

Lemma setup_provider_agrees (k : ProviderKind) (cl : nat) (w : World) :
  exporterOtlpEndpoint (op w) <> "" ->
  exporterOtlpProtocol (op w) <> "http" ->
  setup_provider true k cl w = OtelSDK.setup_provider k cl w.
Proof.
  intros He Hp.
  unfold setup_provider, OtelSDK.setup_provider, newProvider,
    OtelSDK.newProvider, isOtlpProtocolEnabled, newOtlpExporter,
    defaultOtelEndpoint, otelProtocolHTTP.
  destruct (String.eqb_spec (exporterOtlpEndpoint (op w)) "");
    [contradiction|].
  destruct (String.eqb_spec (exporterOtlpProtocol (op w)) "http");
    [contradiction|].
  reflexivity.
Qed.

Lemma setup_provider_keeps_op (b : bool) (k : ProviderKind) (cl : nat)
                              (w w1 : World) :
  setup_provider b k cl w = inl w1 -> op w1 = op w.
Proof.
  unfold setup_provider. destruct b.
  - destruct (newProvider k w); [|destruct (call_shutdown cl w); discriminate].
    intros H. injection H as <-. reflexivity.
  - intros H. injection H as <-. reflexivity.
Qed.

(** X23: the plugin's [SetupOTelSDK] generalises the package-level function
    it replaced: on a plugin with the three features enabled, an OTLP
    endpoint set and a protocol other than "http", the two do the same to
    every world and return the same closure and error. *)
Theorem plugin_SetupOTelSDK_extends_package_SetupOTelSDK (w : World) :
  isEnabledTrace (op w) = true -> isEnabledMetric (op w) = true ->
  isEnabledLog (op w) = true ->
  exporterOtlpEndpoint (op w) <> "" ->
  exporterOtlpProtocol (op w) <> "http" ->
  SetupOTelSDK w = OtelSDK.SetupOTelSDK w.
Proof.
  intros Ht Hm Hl He Hp.
  unfold SetupOTelSDK, OtelSDK.SetupOTelSDK. cbn [op].
  rewrite Ht, <- setup_provider_agrees by assumption.
  destruct (setup_provider true Tracer _ _) as [w1|[w1 err]] eqn:E1;
    [|reflexivity].
  pose proof (setup_provider_keeps_op _ _ _ _ E1) as H1. cbn [op] in H1.
  rewrite H1, Hm, <- setup_provider_agrees by (rewrite H1; assumption).
  destruct (setup_provider true Meter _ _) as [w2|[w2 err]] eqn:E2;
    [|reflexivity].
  pose proof (setup_provider_keeps_op _ _ _ _ E2) as H2.
  rewrite H2, H1, Hl, <- setup_provider_agrees
    by (rewrite H2, H1; assumption).
  reflexivity.
Qed.

Lemma plugin_SetupOTelSDK_extends_package_SetupOTelSDK_witness :
  let w := mk_World example_flags [] [] example_env in
  isEnabledTrace (op w) = true /\ exporterOtlpEndpoint (op w) <> ""
  /\ exporterOtlpProtocol (op w) <> "http"
  /\ SetupOTelSDK w = OtelSDK.SetupOTelSDK w
  /\ map exporter (providers (fst (OtelSDK.SetupOTelSDK w)))
     = [OtlpGRPC; OtlpGRPC; OtlpGRPC].
Proof.
  intros w.
  assert (Ht : isEnabledTrace (op w) = true) by reflexivity.
  assert (Hm : isEnabledMetric (op w) = true) by reflexivity.
  assert (Hl : isEnabledLog (op w) = true) by reflexivity.
  assert (He : exporterOtlpEndpoint (op w) <> "") by (simpl; discriminate).
  assert (Hp : exporterOtlpProtocol (op w) <> "http")
    by (simpl; discriminate).
  repeat (split; [assumption|]).
  split; [|reflexivity].
  exact (plugin_SetupOTelSDK_extends_package_SetupOTelSDK w Ht Hm Hl He Hp).
Defined.

End OtelSDKFacts.

(* ================================================================== *)
(** ** More on the gin listener *)
(* ================================================================== *)

Module GinAddressFacts.
Import Gin Scenario StringFacts.

Lemma itoa_no_colon (p : Z) : after_last_colon (itoa p) = None.
Proof.
  unfold itoa. destruct (Z.to_int p) as [u|u]; simpl.
  - unfold NilZero.string_of_uint. destruct u; try apply digits_no_colon.
    reflexivity.
  - unfold NilZero.string_of_uint.
    destruct u; simpl; try rewrite digits_no_colon; reflexivity.
Qed.

(** X18: The address [URI] reports always ends in a colon followed by the port
    in decimal, whatever the bind address (colons and brackets included):
    the text after its last colon is the port as printed, and for a port
    that is not negative it reads back as that port. *)
Theorem URI_ends_with_the_port (g : ginService) :
  after_last_colon (URI g) = Some (itoa (Port (Config_ g)))
  /\ ((0 <= Port (Config_ g))%Z ->
      port_of_addr (URI g) = Some (Port (Config_ g)))
  /\ exists host, URI g = (host ++ ":" ++ itoa (Port (Config_ g)))%string.
Proof.
  unfold URI. split; [|split].
  - unfold formatBindAddr. apply after_last_colon_app, itoa_no_colon.
  - apply port_of_addr_formatBindAddr.
  - unfold formatBindAddr. eauto.
Qed.

Lemma bracketed_contains_bracket (s : string) :
  strings_Contains ("[" ++ s ++ "]") "[" = true.
Proof. destruct s; reflexivity. Qed.

(** X19: Bracketing is done at most once: the host part [formatBindAddr] writes
    is a fixed point of [formatBindAddr].  In particular an IPv6 literal
    given bare and the same literal given in brackets format to the same
    address. *)
Theorem formatBindAddr_host_is_stable (s : string) (p : Z) :
  (exists host,
      formatBindAddr s p = (host ++ ":" ++ itoa p)%string
      /\ forall q, formatBindAddr host q = (host ++ ":" ++ itoa q)%string)
  /\ (strings_Contains s ":" = true -> strings_Contains s "[" = false ->
      formatBindAddr ("[" ++ s ++ "]") p = formatBindAddr s p).
Proof.
  unfold formatBindAddr. split.
  - destruct (strings_Contains s ":" && negb (strings_Contains s "["))
      eqn:E.
    + exists ("[" ++ s ++ "]")%string. split; [reflexivity|]. intros q.
      now rewrite bracketed_contains_bracket, andb_false_r.
    + exists s. split; [reflexivity|]. intros q. now rewrite E.
  - intros H1 H2. rewrite H1, H2, bracketed_contains_bracket.
    now rewrite andb_false_r.
Qed.
End GinAddressFacts.

Module GinLifecycleFacts.
Import Gin Scenario StringFacts.

Ltac explore :=
  cbv -[formatBindAddr port_of_addr bound_port port_bound Z.eqb String.eqb];
  reflexivity.

Lemma handler_appended_during_startup_witness :
  let late : HandlerFunc :=
    fun e => mk_Engine (middleware e) (routes e ++ ["GET /late"]) in
  let st0 := start (process demo "" false false demo_env)
                   [call_Run; call_AddHandler late] in
  isEnabled demo = true
  /\ map routes
         (engines (world (run on_exit
                              ([0%nat] ++ repeat 1%nat 2 ++ repeat 0%nat 11)
                              st0)))
     = [["GET /ping"; "GET /late"]]
  /\ map routes
         (engines (world (run on_exit
                              (repeat 0%nat 7 ++ repeat 1%nat 2
                               ++ repeat 0%nat 5) st0)))
     = [["GET /ping"]].
Proof.
  intros late st0.
  assert (Hen : isEnabled demo = true) by reflexivity.
  destruct (GinFacts.handler_appended_during_startup demo "" false false
              late 40000 (ListenOK 40001) None Hen)
    as ((_ & H1) & (_ & H2)).
  split; [exact Hen|]. split.
  - transitivity (map routes [router_with (name demo) (Config_ demo) false
                                          (handlers demo ++ [late])]);
      [exact (f_equal (map routes) H1) | vm_compute; reflexivity].
  - transitivity (map routes [router_with (name demo) (Config_ demo) false
                                          (handlers demo)]);
      [exact (f_equal (map routes) H2) | vm_compute; reflexivity].
Defined.

(** X12: [IsRunning] tells whether the service holds a server, not whether it
    is serving: a fresh service has none, and once [Run] has configured one
    [IsRunning] stays true under every schedule of [Stop], also when the
    server is shut down, the listener closed and [Run] has returned. *)
Theorem IsRunning_survives_Stop :
  (forall n, IsRunning (New n) = false)
  /\ (forall (g : ginService) (h : option nat) (e0 : Engine) (addr : string)
             (port : Z) (mode : string) (nolog rel : bool)
             (o0 o1 : ListenOutcome) (f0 f1 : option error)
             (sched : list nat),
         let st := run on_exit sched
                       (spawn call_Stop
                              (running g h e0 addr port mode nolog rel
                                       (env2 o0 o1 f0 f1))) in
         IsRunning (gs (world st)) = true
         /\ (quiescent on_exit st = true ->
             bound (world st) = []
             /\ nonempty (run_returns (trace (world st))) = true
             /\ map inShutdown (servers (world st)) = [true])).
Proof.
  split; [reflexivity|].
  intros g h e0 addr port mode nolog rel o0 o1 f0 f1 sched st.
  set (st0 := spawn call_Stop _) in *.
  assert (Hf : frontier on_exit 11 st0 = [])
    by (destruct f0 as [[|msg]|]; explore).
  pose proof (always_eq on_exit
    (fun s => (IsRunning (gs (world s)),
               if quiescent on_exit s
               then Some (bound (world s),
                          nonempty (run_returns (trace (world s))),
                          map inShutdown (servers (world s)))
               else None))
    (fun s => (true,
               if quiescent on_exit s
               then Some (@nil Listener, true, [true]) else None))
    10 _ Hf ltac:(destruct f0 as [[|msg]|]; explore) sched) as H.
  cbv beta in H. fold st in H.
  apply pair_inv in H. destruct H as [H1 H2].
  split; [exact H1|].
  intros Q. pose proof (@when_inv _ _ _ _ H2 Q) as H.
  apply pair_inv in H. destruct H as [H Hc].
  apply pair_inv in H. destruct H as [Ha Hb]. now repeat split.
Qed.

(** X13: [Reload] on a listener that is disabled and was never run only stores
    the configuration: [Stop] finds no server and acknowledges at once,
    [Run] returns nil because the listener is disabled.  Under every
    schedule nothing is allocated, no socket is asked for, and [Reload]
    returns nil. *)
Theorem Reload_on_disabled_listener_only_stores_config
    (w : World) (c1 : Config) (sched : list nat) :
  isEnabled (gs w) = false -> svr (gs w) = None ->
  let st := run on_exit sched (start w [call_Reload c1]) in
  halted st = None
  /\ bound (world st) = bound w
  /\ listen_calls (world st) = listen_calls w
  /\ servers (world st) = servers w
  /\ engines (world st) = engines w
  /\ IsRunning (gs (world st)) = false
  /\ (quiescent on_exit st = true ->
      Config_ (gs (world st)) = c1
      /\ trace (world st) = trace w ++ [ReloadReturned None]).
Proof.
  intros Hen Hs.
  destruct w as [[c en n lg sv r m hs] mode nolog rel es ss b k e tr].
  simpl in Hen, Hs. subst en sv.
  set (w := mk_World _ _ _ _ _ _ _ _ _ _). intros st.
  assert (Hf : frontier on_exit 9 (start w [call_Reload c1]) = [])
    by explore.
  pose proof (always_eq on_exit
    (fun s => (halted s, bound (world s), listen_calls (world s),
               servers (world s), engines (world s),
               IsRunning (gs (world s)),
               if quiescent on_exit s
               then Some (Config_ (gs (world s)), trace (world s))
               else None))
    (fun s => (@None Halt, b, k, ss, es, false,
               if quiescent on_exit s
               then Some (c1, tr ++ [ReloadReturned None]) else None))
    8 _ Hf ltac:(explore) sched) as H.
  cbv beta in H. fold st in H.
  apply pair_inv in H. destruct H as [H H7].
  apply pair_inv in H. destruct H as [H H6].
  apply pair_inv in H. destruct H as [H H5].
  apply pair_inv in H. destruct H as [H H4].
  apply pair_inv in H. destruct H as [H H3].
  apply pair_inv in H. destruct H as [H1 H2].
  repeat (split; [assumption|]).
  intros Q. pose proof (@when_inv _ _ _ _ H7 Q) as H.
  now apply pair_inv in H.
Qed.

Lemma Reload_on_disabled_listener_only_stores_config_witness :
  let c1 := mk_Config 8080 "127.0.0.1" true in
  let st := run on_exit (repeat 0%nat 3 ++ [1%nat; 1%nat] ++ repeat 0%nat 3)
                (start (fresh "demo" demo_env) [call_Reload c1]) in
  isEnabled (gs (fresh "demo" demo_env)) = false
  /\ svr (gs (fresh "demo" demo_env)) = None
  /\ quiescent on_exit st = true
  /\ Config_ (gs (world st)) = c1
  /\ trace (world st) = [ReloadReturned None]
  /\ bound (world st) = [].
Proof.
  intros c1 st.
  assert (H1 : isEnabled (gs (fresh "demo" demo_env)) = false)
    by reflexivity.
  assert (H2 : svr (gs (fresh "demo" demo_env)) = None) by reflexivity.
  assert (Hq : quiescent on_exit st = true) by (vm_compute; reflexivity).
  destruct (Reload_on_disabled_listener_only_stores_config
              (fresh "demo" demo_env) c1
              (repeat 0%nat 3 ++ [1%nat; 1%nat] ++ repeat 0%nat 3) H1 H2)
    as (_ & Hb & _ & _ & _ & _ & Hr).
  repeat (split; [assumption|]).
  destruct (Hr Hq) as [Ha Ht]. repeat split; assumption.
Defined.


(** X14: [Stop] can be repeated: on a listener that has been stopped, a second
    [Stop] shuts the same server down again (the service still points to
    it) without a panic and with nothing left to close, and its channel
    yields [true] in every execution that runs to its end. *)
Theorem Stop_can_be_repeated
    (g : ginService) (h : option nat) (e0 : Engine) (addr : string)
    (port : Z) (mode : string) (nolog rel : bool) (o0 o1 : ListenOutcome)
    (f0 f1 : option error) (sched1 : list nat) :
  let st1 := run on_exit sched1
                 (spawn call_Stop
                        (running g h e0 addr port mode nolog rel
                                 (env2 o0 o1 f0 f1))) in
  quiescent on_exit st1 = true ->
  forall sched2,
    let st2 := run on_exit sched2 (spawn call_Stop st1) in
    halted st2 = None
    /\ bound (world st2) = []
    /\ (yielded 1 st2 = [] \/ yielded 1 st2 = [true])
    /\ (quiescent on_exit st2 = true ->
        yielded 1 st2 = [true]
        /\ shutdowns_returned (trace (world st2)) = [0%nat; 0%nat]).
Proof.
  intros st1.
  set (st0 := spawn call_Stop _) in *.
  pose (f2 := fun s2 : State World =>
                (halted s2, bound (world s2),
                 match yielded 1 s2 with
                 | [] | [true] => true
                 | _ => false
                 end,
                 if quiescent on_exit s2
                 then Some (yielded 1 s2,
                            shutdowns_returned (trace (world s2)))
                 else None)).
  pose (g2 := fun s2 : State World =>
                (@None Halt, @nil Listener, true,
                 if quiescent on_exit s2
                 then Some ([true], [0%nat; 0%nat]) else None)).
  assert (Hf : frontier on_exit 11 st0 = [])
    by (destruct f0 as [[|msg]|]; explore).
  pose proof (always_eq on_exit
    (fun s1 =>
       if quiescent on_exit s1
       then Some (frontier on_exit 9 (spawn call_Stop s1),
                  map f2 (reach on_exit 8 (spawn call_Stop s1)))
       else None)
    (fun s1 =>
       if quiescent on_exit s1
       then Some ([], map g2 (reach on_exit 8 (spawn call_Stop s1)))
       else None)
    10 _ Hf ltac:(destruct f0 as [[|msg]|]; explore) sched1) as H.
  cbv beta in H. fold st1 in H. intros Q.
  pose proof (@when_inv _ _ _ _ H Q) as H'. clear H.
  apply pair_inv in H'. destruct H' as [H4 H5].
  intros sched2 st2.
  pose proof (always_eq on_exit f2 g2 8 _ H4 H5 sched2) as H.
  fold st2 in H. unfold f2, g2 in H.
  apply pair_inv in H. destruct H as [H Hd].
  apply pair_inv in H. destruct H as [H Hc].
  apply pair_inv in H. destruct H as [Ha Hb].
  split; [exact Ha|]. split; [exact Hb|]. split.
  - destruct (yielded 1 st2) as [|[] [|]]; auto; discriminate.
  - intros Q2. pose proof (@when_inv _ _ _ _ Hd Q2) as H.
    now apply pair_inv in H.
Qed.

Lemma Stop_can_be_repeated_witness :
  let st0 := spawn call_Stop
                   (running (after_bind demo 40000) (Some 0%nat)
                            (router_with "demo" demo_config false [ping])
                            ":3000" 3000 "" false false demo_env) in
  let sched1 := repeat 1%nat 2 ++ repeat 2%nat 4 ++ [1%nat; 1%nat]
                ++ repeat 0%nat 2 in
  let st1 := run on_exit sched1 st0 in
  let sched2 := repeat 3%nat 2 ++ repeat 4%nat 4 ++ [3%nat; 3%nat] in
  let st2 := run on_exit sched2 (spawn call_Stop st1) in
  quiescent on_exit st1 = true
  /\ quiescent on_exit st2 = true
  /\ halted st2 = None
  /\ yielded 1 st2 = [true].
Proof.
  intros st0 sched1 st1 sched2 st2.
  assert (Q1 : quiescent on_exit st1 = true) by (vm_compute; reflexivity).
  assert (Q2 : quiescent on_exit st2 = true) by (vm_compute; reflexivity).
  destruct (Stop_can_be_repeated (after_bind demo 40000) (Some 0%nat)
              (router_with "demo" demo_config false [ping]) ":3000" 3000
              "" false false (ListenOK 40000) (ListenOK 40001) None None
              sched1 Q1 sched2) as (Ha & _ & _ & Hd).
  repeat (split; [assumption|]). exact (proj1 (Hd Q2)).
Defined.

Lemma run_quiescent (st : State World) :
  quiescent on_exit st = true ->
  forall sched, run on_exit sched st = st.
Proof.
  intros Q sched. induction sched as [|i rest IH]; [reflexivity|].
  simpl. destruct (step_thread on_exit i st) as [st'|] eqn:E; [|exact IH].
  apply step_in_succs in E. unfold quiescent in Q.
  destruct (succs on_exit st); [destruct E|discriminate].
Qed.

(** X15: [Port] takes the mutex, reads, and gives the mutex back.  With the
    mutex free, two concurrent calls both return the configured port under
    every schedule: nothing else is ever observed, the configuration is
    never changed, and at rest both have returned and the mutex is free
    again.  While someone else holds the mutex, a call of [Port] does not
    move. *)
Theorem Port_takes_and_releases_the_mutex (w : World) :
  (mu (gs w) = false ->
   forall sched,
     let st := run on_exit sched (start w [call_Port; call_Port]) in
     let ev := PortReturned (Port (Config_ (gs w))) in
     halted st = None
     /\ Config_ (gs (world st)) = Config_ (gs w)
     /\ (exists n, (n <= 2)%nat
                   /\ trace (world st) = trace w ++ repeat ev n)
     /\ (quiescent on_exit st = true ->
         mu (gs (world st)) = false
         /\ trace (world st) = trace w ++ [ev; ev]))
  /\ (mu (gs w) = true ->
      forall sched,
        run on_exit sched (start w [call_Port]) = start w [call_Port]).
Proof.
  destruct w as [[[p bind nd] en n lg sv r m hs] mode nolog rel es ss b k e
                 tr].
  split.
  - intros Hm. simpl in Hm. subst m.
    set (w := mk_World _ _ _ _ _ _ _ _ _ _). intros sched st ev.
    change (trace w) with tr.
    change (Config_ (gs w)) with (mk_Config p bind nd).
    change ev with (PortReturned p). clear ev.
    pose (returned := fun s : State World =>
            List.length (filter (fun t => match t with
                                          | Done => true
                                          | _ => false
                                          end) (pool s))).
    assert (Hf : frontier on_exit 9 (start w [call_Port; call_Port]) = [])
      by explore.
    pose proof (always_eq on_exit
      (fun s => (halted s, Config_ (gs (world s)), trace (world s),
                 if quiescent on_exit s
                 then Some (mu (gs (world s)), returned s) else None))
      (fun s => (@None Halt, mk_Config p bind nd,
                 match returned s with
                 | 0%nat => tr
                 | 1%nat => tr ++ [PortReturned p]
                 | _ => (tr ++ [PortReturned p]) ++ [PortReturned p]
                 end,
                 if quiescent on_exit s then Some (false, 2%nat) else None))
      8 _ Hf ltac:(explore) sched) as H.
    cbv beta in H. fold st in H.
    apply pair_inv in H. destruct H as [H H4].
    apply pair_inv in H. destruct H as [H H3].
    apply pair_inv in H. destruct H as [H1 H2].
    split; [exact H1|]. split; [exact H2|]. split.
    + rewrite H3. destruct (returned st) as [|[|k']].
      * exists 0%nat. split; [lia|]. simpl. now rewrite app_nil_r.
      * exists 1%nat. split; [lia|reflexivity].
      * exists 2%nat. split; [lia|]. now rewrite <- app_assoc.
    + intros Q. pose proof (@when_inv _ _ _ _ H4 Q) as H.
      apply pair_inv in H. destruct H as [Ha Hb].
      split; [exact Ha|]. rewrite H3, Hb. now rewrite <- app_assoc.
  - intros Hm. simpl in Hm. subst m. apply run_quiescent. explore.
Qed.




(** X17: A [Stop] that comes before [Run] has configured its server is lost:
    its goroutine finds no server, so nothing is shut down; there is a
    schedule on which the acknowledgment is delivered and the listener then
    comes up and stays up with [Run] in its accept loop.  A [Stop] that
    comes once the server exists, even before the listener is handed to it,
    is not lost: [Serve] refuses the listener of a server that is shut
    down, and [Run] returns nil with the socket closed. *)
Theorem Stop_before_Configure_is_lost
    (g : ginService) (mode : string) (nolog rel : bool) (eph : positive)
    (o1 : ListenOutcome) (f1 : option error) :
  isEnabled g = true -> svr g = None ->
  let st0 := start (process g mode nolog rel
                            (env2 (ListenOK eph) o1 None f1))
                   [call_Run; call_Stop] in
  (let st := run on_exit ([1%nat; 1%nat; 2%nat; 2%nat; 1%nat]
                          ++ repeat 0%nat 12) st0 in
   quiescent on_exit st = true
   /\ yielded 0 st = [true]
   /\ shutdowns_returned (trace (world st)) = []
   /\ map lis_id (bound (world st)) = [0%nat]
   /\ run_returns (trace (world st)) = [])
  /\ (let st := run on_exit (repeat 0%nat 5
                             ++ [1%nat; 1%nat] ++ repeat 2%nat 5 ++ [1%nat]
                             ++ repeat 0%nat 9) st0 in
      quiescent on_exit st = true
      /\ yielded 0 st = [true]
      /\ shutdowns_returned (trace (world st)) = [0%nat]
      /\ bound (world st) = []
      /\ run_returns (trace (world st)) = [None]).
Proof.
  intros Hen Hs. destruct g as [c en n lg sv r m hs].
  simpl in Hen, Hs. subst en sv.
  split; repeat split; explore.
Qed.

Lemma Stop_before_Configure_is_lost_witness :
  let st0 := start (process demo "" false false demo_env)
                   [call_Run; call_Stop] in
  let st := run on_exit ([1%nat; 1%nat; 2%nat; 2%nat; 1%nat]
                         ++ repeat 0%nat 12) st0 in
  isEnabled demo = true /\ svr demo = None
  /\ quiescent on_exit st = true
  /\ yielded 0 st = [true]
  /\ map lis_id (bound (world st)) = [0%nat].
Proof.
  intros st0 st.
  assert (H1 : isEnabled demo = true) by reflexivity.
  assert (H2 : svr demo = None) by reflexivity.
  destruct (proj1 (Stop_before_Configure_is_lost demo "" false false 40000
                     (ListenOK 40001) None H1 H2))
    as (Ha & Hb & _ & Hd & _).
  repeat (split; [assumption|]). exact Hd.
Defined.

End GinLifecycleFacts.

(* ================================================================== *)
(** ** The logger *)
(* ================================================================== *)

Module LoggerFacts.

Import Gin Logger StringFacts.

Lemma lookup_set_field (k v k' : string) (d : Fields) :
  lookup k' (set_field k v d)
  = if String.eqb k k' then Some v else lookup k' d.
Proof.
  unfold set_field. cbn [lookup].
  destruct (String.eqb_spec k k') as [->|Hne]; [reflexivity|].
  induction d as [|[k0 v0] d IH]; [reflexivity|].
  cbn [filter fst lookup].
  destruct (String.eqb_spec k0 k) as [->|Hk]; cbn [negb lookup].
  - destruct (String.eqb_spec k k'); [contradiction|exact IH].
  - destruct (String.eqb k0 k'); [reflexivity|exact IH].
Qed.

(** X20: [debugSrc] sets the source once.  An entry that has a "source" field
    comes back as it is, whoever the caller; otherwise the field is added,
    and no other field changes.  So a source the user attached with [With]
    is never replaced, and [WithSrc] applied twice is [WithSrc] applied
    once, the first caller's position being kept. *)
Theorem debugSrc_sets_source_once
    (c1 c2 : option (string * Z)) (l : Entry) :
  (forall v, lookup "source" (Data l) = Some v -> debugSrc c1 l = l)
  /\ (exists v, lookup "source" (Data (debugSrc c1 l)) = Some v)
  /\ (forall k, k <> "source" ->
                lookup k (Data (debugSrc c1 l)) = lookup k (Data l))
  /\ Logger_Level (debugSrc c1 l) = Logger_Level l
  /\ WithSrc c2 (WithSrc c1 l) = WithSrc c1 l
  /\ (forall v, lookup "source" (Data (debugSrc c1 (With "source" v l)))
                = Some v).
Proof.
  unfold WithSrc, With.
  assert (Hhas : exists v, lookup "source" (Data (debugSrc c1 l)) = Some v).
  { unfold debugSrc. destruct (lookup "source" (Data l)) as [v|] eqn:E.
    - now exists v.
    - cbn [Data WithField]. rewrite lookup_set_field. cbn. eauto. }
  split; [|split; [exact Hhas|split; [|split; [|split]]]].
  - intros v Hv. unfold debugSrc. now rewrite Hv.
  - intros k Hk. unfold debugSrc.
    destruct (lookup "source" (Data l)); [reflexivity|].
    cbn [Data WithField]. rewrite lookup_set_field.
    destruct (String.eqb_spec "source" k); [congruence|reflexivity].
  - unfold debugSrc. now destruct (lookup "source" (Data l)).
  - destruct Hhas as [v Hv]. unfold debugSrc at 1. now rewrite Hv.
  - intros v.
    assert (H : lookup "source" (Data (WithField "source" v l)) = Some v)
      by (cbn [Data WithField]; rewrite lookup_set_field; reflexivity).
    unfold debugSrc. rewrite H. exact H.
Qed.


Lemma no_slash_LastIndex (s : string) :
  strings_Contains s "/" = false -> strings_LastIndex s "/" = (-1)%Z.
Proof.
  induction s as [|c t IH]; [reflexivity|].
  cbn [strings_Contains strings_LastIndex].
  destruct (String.prefix "/" (String c t)); [discriminate|].
  intros H. now rewrite (IH H).
Qed.

Lemma LastIndex_of_path (dir base : string) :
  strings_Contains base "/" = false ->
  strings_LastIndex (dir ++ "/" ++ base) "/"
  = Z.of_nat (String.length dir).
Proof.
  intros Hb. induction dir as [|c dir IH].
  - change ("" ++ "/" ++ base)%string with (String "/" base).
    cbn [strings_LastIndex]. rewrite (no_slash_LastIndex _ Hb).
    cbn. destruct (ascii_dec "/" "/"); [|congruence].
    now destruct base.
  - change (String c dir ++ "/" ++ base)%string
      with (String c (dir ++ "/" ++ base)).
    cbn [strings_LastIndex String.length]. rewrite IH.
    destruct (Z.leb_spec 0 (Z.of_nat (String.length dir))); lia.
Qed.

Lemma slice_from_path (dir base : string) :
  slice_from (S (String.length dir)) (dir ++ "/" ++ base) = base.
Proof. induction dir as [|c dir IH]; [reflexivity|exact IH]. Qed.

(** X21: The source field [debugSrc] adds is the caller's position, with the
    file name cut down to what follows the last slash of its path: the path
    [dir/base] gives [base:line], a path without a slash is kept whole, and
    an unknown caller gives the placeholder with line 1. *)
Theorem debugSrc_names_the_calling_file (l : Entry) :
  lookup "source" (Data l) = None ->
  (forall dir base line,
      strings_Contains base "/" = false ->
      lookup "source"
             (Data (debugSrc (Some (dir ++ "/" ++ base, line)%string) l))
      = Some (base ++ ":" ++ itoa line)%string)
  /\ (forall file line,
         strings_Contains file "/" = false ->
         lookup "source" (Data (debugSrc (Some (file, line)) l))
         = Some (file ++ ":" ++ itoa line)%string)
  /\ lookup "source" (Data (debugSrc None l)) = Some "<???>:1".
Proof.
  intros Hl. unfold debugSrc. rewrite Hl. cbn [Data WithField].
  split; [|split].
  - intros dir base line Hb. rewrite lookup_set_field. cbn [String.eqb].
    rewrite (LastIndex_of_path dir base Hb).
    replace (Z.to_nat (Z.of_nat (String.length dir) + 1))
      with (S (String.length dir)) by lia.
    now rewrite slice_from_path.
  - intros file line Hf. rewrite lookup_set_field.
    now rewrite (no_slash_LastIndex _ Hf).
  - rewrite lookup_set_field. reflexivity.
Qed.

Lemma debugSrc_names_the_calling_file_witness :
  let l := mk_Entry DebugLevel [("service", "gin")] in
  lookup "source" (Data l) = None
  /\ lookup "source"
            (Data (debugSrc (Some ("/src/go-sdk/httpserver/gin.go", 81%Z)) l))
     = Some "gin.go:81".
Proof.
  intros l.
  assert (Hl : lookup "source" (Data l) = None) by reflexivity.
  assert (Hb : strings_Contains "gin.go" "/" = false) by reflexivity.
  split; [exact Hl|].
  exact (proj1 (debugSrc_names_the_calling_file l Hl)
               "/src/go-sdk/httpserver" "gin.go" 81%Z Hb).
Defined.

(** X22: [Debug] (and [Debugln], [Debugf], [Print], which share its body) writes
    exactly when the logger's level is debug or trace: one line, at debug
    level, carrying a source field; at any other level the log is left as
    it is.  Nothing already written is ever dropped. *)
Theorem Debug_writes_only_at_debug_level
    (caller : option (string * Z)) (msg : string) (l : Entry)
    (out : list Line) :
  (Logger_Level l = DebugLevel \/ Logger_Level l = TraceLevel ->
   Debug caller msg l out
   = out ++ [mk_Line DebugLevel (Data (debugSrc caller l)) msg]
   /\ exists src, lookup "source" (Data (debugSrc caller l)) = Some src)
  /\ (Logger_Level l <> DebugLevel -> Logger_Level l <> TraceLevel ->
      Debug caller msg l out = out)
  /\ (exists added, Debug caller msg l out = out ++ added
                    /\ (List.length added <= 1)%nat)
  /\ Print caller msg l out = Debug caller msg l out.
Proof.
  assert (Hsrc : exists src,
             lookup "source" (Data (debugSrc caller l)) = Some src).
  { unfold debugSrc. destruct (lookup "source" (Data l)) as [v|] eqn:E.
    - now exists v.
    - cbn [Data WithField]. rewrite lookup_set_field. cbn. eauto. }
  assert (Hlv : Logger_Level (debugSrc caller l) = Logger_Level l)
    by (unfold debugSrc; now destruct (lookup "source" (Data l))).
  unfold Print, Debug, Entry_Debug. rewrite Hlv.
  split; [|split; [|split; [|reflexivity]]].
  - intros [H|H]; rewrite H; (split; [reflexivity|exact Hsrc]).
  - intros H1 H2. destruct (Logger_Level l); try reflexivity; congruence.
  - destruct (level_value DebugLevel <=? level_value (Logger_Level l))%Z.
    + eexists. split; [reflexivity|]. simpl. lia.
    + exists []. split; [now rewrite app_nil_r|]. simpl. lia.
Qed.

End LoggerFacts.
